(** * API Keymaster: the encrypted vault engine

    Shallow embedding of the vault code of the repository:
    - [src/api-keymaster-netlify-function]: the serverless handler
      ([deriveKey], [encrypt], [decrypt], [generateToken], [verifyToken],
      [getAuthUser], [handler] with the routing of its path);
    - the class [ApiKeymaster] listed in [README.md] ([init],
      [createVault], [unlockVault], [saveVault], [parseEncryptedData],
      [deriveKey], [addKey], [getKey], [listKeys], [execWithKeys],
      [exportForShell], [removeKey]).
    The file [netlify/functions/api-keymaster.js] answers every request with
    a fixed message and holds no vault code.

    What the code takes from Node and from npm packages (scrypt, AES-256-GCM,
    base64, JSON, JWT, the key-value store, the clock and the random
    generator) is not code of the repository: it enters the development as
    section variables, with the few laws the proofs need as hypotheses. *)

From Stdlib Require Import Strings.String Strings.Ascii Strings.Byte Lists.List
  Arith.PeanoNat NArith ZArith Lia.
From stdpp Require Import base option list strings gmap fin_maps.

Local Open Scope string_scope.

(** ** Plain JavaScript objects used as maps

    A plain object (made by a literal [{}] or by [JSON.parse]) has its own
    properties, here a [gmap], and inherits those of [Object.prototype].
    The vault code reads with [o[k]], writes with [o[k] = v], removes with
    [delete o[k]] and enumerates with [Object.keys(o)]. Reading and writing
    walk the prototype chain (the [[Get]] and [[Set]] of ECMA-262);
    [delete], [Object.keys] and [JSON.stringify] see own properties only.
    [Object.prototype] is taken with its built-in properties: what an
    earlier write through [vault["__proto__"]] added to it is not tracked. *)

Module JS.

(** The property names every plain object inherits. *)
Definition object_prototype_names : list string :=
  [ "constructor"; "__defineGetter__"; "__defineSetter__"; "hasOwnProperty";
    "__lookupGetter__"; "__lookupSetter__"; "isPrototypeOf";
    "propertyIsEnumerable"; "toString"; "valueOf"; "__proto__";
    "toLocaleString" ].

Definition inherited (k : string) : bool :=
  bool_decide (k ∈ object_prototype_names).

(** Result of the property read [o[k]]. *)
Inductive property (A : Type) : Type :=
| Own (a : A)            (* an own property of [o] *)
| Builtin (k : string)   (* [Object.prototype[k]]: a function, or the
                            prototype itself for [__proto__] *)
| Undefined.
Arguments Own {A} a.
Arguments Builtin {A} k.
Arguments Undefined {A}.

Definition get {A} (o : gmap string A) (k : string) : property A :=
  match o !! k with
  | Some a => Own a
  | None => if inherited k then Builtin k else Undefined
  end.

(** [!x] for the result of a read whose own values are objects: objects
    and functions are truthy, [undefined] is not. *)
Definition falsy {A} (p : property A) : bool :=
  match p with
  | Undefined => true
  | _ => false
  end.

(** [o[k] = v]. The name [__proto__] reaches the accessor of
    [Object.prototype] unless [o] has an own property of that name: the
    setter replaces the prototype of [o] and creates no own property. *)
Definition set {A} (o : gmap string A) (k : string) (v : A) : gmap string A :=
  match o !! k with
  | Some _ => <[k:=v]> o
  | None => if String.eqb k "__proto__" then o else <[k:=v]> o
  end.

(** [delete o[k]] removes an own property and does nothing otherwise. *)
Definition del {A} (o : gmap string A) (k : string) : gmap string A :=
  delete k o.

(** [Object.keys(o)]: the own property names. *)
Definition keys {A} (o : gmap string A) : list string :=
  (map_to_list o).*1.

(** A string that may be [undefined], when it is truthy: [!s] holds for
    [undefined] and for the empty string. *)
Definition present (s : option string) : option string :=
  match s with
  | Some s => if String.eqb s EmptyString then None else Some s
  | None => None
  end.

(** [s.replace(pattern, '')] for a string [pattern]: the first occurrence
    of [pattern] in [s] is removed. *)
Fixpoint replace (s pattern : string) {struct s} : string :=
  if String.prefix pattern s then
    String.substring (String.length pattern)
      (String.length s - String.length pattern) s
  else
    match s with
    | EmptyString => EmptyString
    | String c rest => String c (replace rest pattern)
    end.

(** [s.split(sep)] for a separator [sep] of one character. *)
Fixpoint split (s : string) (sep : ascii) : list string :=
  match s with
  | EmptyString => [EmptyString]
  | String c rest =>
      if Ascii.eqb c sep then EmptyString :: split rest sep
      else
        match split rest sep with
        | segment :: segments => String c segment :: segments
        | [] => [String c EmptyString]
        end
  end.

(** What the built-in object [Object.prototype[b]] does when the vault code
    reads, writes or deletes its property [k]: whether the value read is
    truthy, whether the assignment throws, whether [delete] throws (it can,
    in strict code). This is state of the JavaScript realm, outside the
    vault. *)
Record Realm : Type := {
  builtin_truthy : string → string → bool;
  builtin_set_throws : string → string → bool;
  builtin_delete_throws : string → string → bool
}.

End JS.

(** ** Data model *)

Abbreviation Buffer := (list byte).

#[global] Instance byte_eq_dec : EqDecision byte := Byte.byte_eq_dec.

Record VaultEntry : Type := {
  value : string;
  added : string;
  meta : gmap string string
}.

#[global] Instance VaultEntry_eq_dec : EqDecision VaultEntry.
Proof. solve_decision. Defined.

(** [vault[platform][keyName]] is a [VaultEntry]. *)
Abbreviation Platform := (gmap string VaultEntry).
Abbreviation Vault := (gmap string (gmap string VaultEntry)).

(** One element of the arrays built by the operation [list]. *)
Record KeyInfo : Type := {
  info_name : string;
  info_added : string;
  info_meta : gmap string string
}.

(** Why the decipher of [node:crypto] throws. *)
Inductive crypto_failure : Type :=
| InvalidIv              (* [createDecipheriv]: invalid initialization vector *)
| InvalidAuthTagLength   (* [setAuthTag]: invalid authentication tag length *)
| Unauthenticated.       (* [final]: unable to authenticate data *)

(** Exceptions the vault code can meet. *)
Inductive exn : Type :=
| CryptoError (why : crypto_failure)
| SyntaxError    (* thrown by [JSON.parse] *)
| TypeError      (* thrown by a property access or assignment *)
| StoreError     (* the store or the file system rejected a write *)
| Error (msg : string).  (* [new Error(msg)] *)

(** ** The mutations of the vault, shared by the handler and the class *)

Section VaultModel.

Variable realm : JS.Realm.

(** The assignment of [case 'add'] (handler, lines 250-260) and of
    [addKey] (README, lines 292-300):
<<
    if (!vault[platform]) { vault[platform] = {}; }
    vault[platform][keyName] = { value: keyValue, added: ..., meta: ... };
>> *)
Definition assign_key (vault : Vault) (platform keyName : string)
    (entry : VaultEntry) : exn + Vault :=
  let vault1 :=
    if JS.falsy (JS.get vault platform) then JS.set vault platform ∅
    else vault in
  match JS.get vault1 platform with
  | JS.Own keysOfPlatform =>
      inr (<[platform := JS.set keysOfPlatform keyName entry]> vault1)
  | JS.Builtin b =>
      (* the entry is written into the built-in object, not the vault *)
      if JS.builtin_set_throws realm b keyName then inl TypeError
      else inr vault1
  | JS.Undefined => inl TypeError
  end.

(** The test of [case 'remove'] (handler, line 279) and of [removeKey]
    (README, line 404):
<<
    !vault[platform] || !vault[platform][keyName]
>> *)
Definition key_missing (vault : Vault) (platform keyName : string) : bool :=
  match JS.get vault platform with
  | JS.Undefined => true
  | JS.Own keysOfPlatform => JS.falsy (JS.get keysOfPlatform keyName)
  | JS.Builtin b => negb (JS.builtin_truthy realm b keyName)
  end.

(** The deletion of [case 'remove'] (handler, lines 283-289) and of
    [removeKey] (README, lines 408-413):
<<
    delete vault[platform][keyName];
    if (Object.keys(vault[platform]).length === 0) { delete vault[platform]; }
>> *)
Definition delete_key (vault : Vault) (platform keyName : string)
    : exn + Vault :=
  match JS.get vault platform with
  | JS.Own keysOfPlatform =>
      let rest := JS.del keysOfPlatform keyName in
      let vault1 := <[platform := rest]> vault in
      if Nat.eqb (length (JS.keys rest)) 0 then inr (JS.del vault1 platform)
      else inr vault1
  | JS.Builtin b =>
      (* the deletion happens inside the built-in object; [platform] is no
         own property of the vault, which [delete vault[platform]] would
         leave as it is. *)
      if JS.builtin_delete_throws realm b keyName then inl TypeError
      else inr vault
  | JS.Undefined => inl TypeError
  end.

(** The array that [case 'list'] (handler, lines 212-216) and [listKeys]
    (README, lines 329-333) build for one platform. *)
Definition key_infos (keysOfPlatform : Platform) : list KeyInfo :=
  (λ kv : string * VaultEntry,
     {| info_name := kv.1; info_added := added kv.2; info_meta := meta kv.2 |})
  <$> map_to_list keysOfPlatform.

(** The result of [case 'list'] (handler, lines 210-217) and of [listKeys]
    (README, lines 326-334):
<<
    const result = {};
    Object.keys(vault).forEach(platform => { result[platform] = ...; });
>> *)
Definition list_keys (vault : Vault) : gmap string (list KeyInfo) :=
  map_fold
    (λ platform keysOfPlatform result,
       JS.set result platform (key_infos keysOfPlatform))
    ∅ vault.

End VaultModel.

(** ** Requests, responses and the key-value store *)

(** The fields the handler destructures from [JSON.parse(event.body)];
    a field that the body lacks is [undefined], here [None]. *)
Record Body : Type := {
  username : option string;
  masterPassword : option string;
  operation : option string;
  platform : option string;
  keyName : option string;
  keyValue : option string;
  req_meta : option (gmap string string)
}.

(** What the handler reads of [event]. [endpoint] is the first segment of
    the path (line 108), [body] is [None] when [JSON.parse(event.body)]
    throws, [cookie_token] is [cookies.token] and [bearer] is
    [event.headers.authorization?.split(' ')[1]] (lines 74-75). *)
Record Event : Type := {
  httpMethod : string;
  endpoint : option string;
  body : option Body;
  cookie_token : option string;
  bearer : option string
}.

(** The JSON documents the handler answers with. *)
Inductive ResponseBody : Type :=
| NoBody
| ErrorBody (error : string)                 (* { error } *)
| Success                                    (* { success: true } *)
| SuccessToken (token : string)              (* { success: true, token } *)
| VaultInfo (user : string) (lastModified : option string)
| KeyList (keys : gmap string (list KeyInfo))
| KeyData (entry : VaultEntry)
| BuiltinData.         (* a value found on a built-in object *)

(** [setCookie] is the token and the [maxAge] of the [Set-Cookie] header. *)
Record Response : Type := {
  statusCode : nat;
  responseBody : ResponseBody;
  setCookie : option (string * nat)
}.

Definition respond (code : nat) (b : ResponseBody) : Response :=
  {| statusCode := code; responseBody := b; setCookie := None |}.

(** What one invocation draws from its environment: the random bytes of
    line 127 (in hexadecimal) and of line 22, the two readings of the clock
    of an [add] or [remove], and the keys for which [kvStore.set] rejects. *)
Record Ambient : Type := {
  randomSalt : string;
  randomIv : Buffer;
  now : string;
  nowModified : string;
  setRejects : string → bool
}.

(** The store, and computations that read and write it and may throw. *)
Abbreviation Store := (gmap string string).

Definition KV (A : Type) : Type := Store → (exn + A) * Store.

Definition kv_return {A} (a : A) : KV A := λ s, (inr a, s).

Definition kv_throw {A} (e : exn) : KV A := λ s, (inl e, s).

Definition kv_bind {A B} (m : KV A) (k : A → KV B) : KV B :=
  λ s, match m s with
       | (inr a, s1) => k a s1
       | (inl e, s1) => (inl e, s1)
       end.

Definition kv_try {A} (m : KV A) (handle : exn → KV A) : KV A :=
  λ s, match m s with
       | (inr a, s1) => (inr a, s1)
       | (inl e, s1) => handle e s1
       end.

Definition kv_of {A} (r : exn + A) : KV A :=
  match r with
  | inr a => kv_return a
  | inl e => kv_throw e
  end.

Definition kv_get (key : string) : KV (option string) :=
  λ s, (inr (s !! key), s).

Definition kv_set (amb : Ambient) (key val : string) : KV unit :=
  λ s, if setRejects amb key then (inl StoreError, s)
       else (inr tt, <[key:=val]> s).

Notation "'let!' x ':=' m 'in' k" := (kv_bind m (λ x, k))
  (at level 10, x pattern, m at level 100, k at level 200).

Definition saltKey (user : string) : string := "user:" +:+ user +:+ ":salt".
Definition vaultKey (user : string) : string := "user:" +:+ user +:+ ":vault".
Definition lastModifiedKey (user : string) : string :=
  "user:" +:+ user +:+ ":lastModified".

(** [s === lit] for a string [s] that may be [undefined]. *)
Definition equals (s : option string) (lit : string) : bool :=
  match s with
  | Some s => String.eqb s lit
  | None => false
  end.

(** ** The serverless handler ([src/api-keymaster-netlify-function]) *)

(** Lines 107-108, the endpoint of [event.path]:
<<
    const path = event.path.replace('/.netlify/functions/api-keymaster', '')
                           .replace('/api', '');
    const endpoint = path.split('/').filter(Boolean)[0];
>> *)
Definition endpoint_of (path : string) : option string :=
  let path1 :=
    JS.replace (JS.replace path "/.netlify/functions/api-keymaster") "/api" in
  head (filter (λ segment, segment ≠ EmptyString) (JS.split path1 "/")).

(** Line 75: [event.headers.authorization?.split(' ')[1]]. *)
Definition bearer_of (authorization : option string) : option string :=
  authorization ≫= λ header, JS.split header " " !! 1.

Section Handler.

Variable realm : JS.Realm.

(** [crypto.scryptSync(password, salt, 32)]. *)
Variable scryptSync : string → string → Buffer.

(** AES-256-GCM as the code drives it. [gcm_seal key iv plaintext] is the
    pair (ciphertext, tag) of [createCipheriv], [update], [final] and
    [getAuthTag]; [gcm_open key iv tag ciphertext] is the plaintext of
    [createDecipheriv], [setAuthTag], [update] and [final], or the reason
    why one of them throws. *)
Variable gcm_seal : Buffer → Buffer → Buffer → Buffer * Buffer.
Variable gcm_open :
  Buffer → Buffer → Buffer → Buffer → crypto_failure + Buffer.

(** [buf.toString('base64')] and [Buffer.from(text, 'base64')]. *)
Variable base64_encode : Buffer → string.
Variable base64_decode : string → Buffer.

(** [JSON.stringify] of a vault, in UTF-8; [JSON.parse] of UTF-8 text that
    holds a vault, [None] when it throws. *)
Variable JSON_stringify : Vault → Buffer.
Variable JSON_parse : Buffer → option Vault.

(** [jwt.sign({ sub }, secret, { expiresIn: '1h' })] and the [sub] that
    [jwt.verify(token, secret)] returns, [None] when it throws. *)
Variable jwt_sign : string → string.
Variable jwt_verify : string → option string.

(** Lines 15-17. *)
Definition deriveKey (password salt : string) : Buffer :=
  scryptSync password salt.

(** Lines 20-31; [iv] is the outcome of [crypto.randomBytes(16)]. *)
Definition encrypt (iv : Buffer) (data : Vault) (password salt : string)
    : string :=
  let key := deriveKey password salt in
  let '(encrypted, authTag) := gcm_seal key iv (JSON_stringify data) in
  base64_encode (iv ++ authTag ++ encrypted).

(** Lines 35-46: the text handed to [JSON.parse]. *)
Definition decrypted (encryptedData password salt : string) : exn + Buffer :=
  let key := deriveKey password salt in
  let data := base64_decode encryptedData in
  let iv := take 16 data in
  let authTag := take (32 - 16) (drop 16 data) in
  let encryptedText := drop 32 data in
  match gcm_open key iv authTag encryptedText with
  | inr text => inr text
  | inl why => inl (CryptoError why)
  end.

(** Lines 34-49. *)
Definition decrypt (encryptedData password salt : string) : exn + Vault :=
  match decrypted encryptedData password salt with
  | inr text =>
      match JSON_parse text with
      | Some data => inr data
      | None => inl SyntaxError
      end
  | inl e => inl e
  end.

(** Lines 52-58. *)
Definition generateToken (userId : string) : string := jwt_sign userId.

(** Lines 61-70. *)
Definition verifyToken (token : string) : option string := jwt_verify token.

(** Lines 73-82. *)
Definition getAuthUser (event : Event) : option string :=
  let token :=
    match JS.present (cookie_token event) with
    | Some t => Some t
    | None => bearer event
    end in
  match JS.present token with
  | None => None
  | Some t => verifyToken t
  end.

(** Lines 113-159. *)
Definition login (amb : Ambient) (event : Event) : KV Response :=
  if negb (String.eqb (httpMethod event) "POST") then
    kv_return (respond 405 (ErrorBody "Method not allowed"))
  else
    match body event with
    | None => kv_throw SyntaxError
    | Some b =>
        match JS.present (username b), JS.present (masterPassword b) with
        | Some user, Some password =>
            let! stored := kv_get (saltKey user) in
            let! salt :=
              match JS.present stored with
              | Some salt => kv_return salt
              | None =>
                  let! _ := kv_set amb (saltKey user) (randomSalt amb) in
                  kv_return (randomSalt amb)
              end in
            let! vault := kv_get (vaultKey user) in
            let! _ :=
              match JS.present vault with
              | Some _ => kv_return tt
              | None =>
                  kv_set amb (vaultKey user)
                    (encrypt (randomIv amb) ∅ password salt)
              end in
            let token := generateToken user in
            kv_return {| statusCode := 200;
                         responseBody := SuccessToken token;
                         setCookie := Some (token, 3600) |}
        | _, _ =>
            kv_return
              (respond 400 (ErrorBody "Username and master password required"))
        end
    end.

(** Lines 226-243. *)
Definition get_operation (vault : Vault) (b : Body) : Response :=
  match JS.present (platform b), JS.present (keyName b) with
  | Some p, Some k =>
      let keyData :=
        match JS.get vault p with
        | JS.Own platformData => JS.get platformData k
        | JS.Undefined => JS.get (∅ : Platform) k
        | JS.Builtin f =>
            if JS.builtin_truthy realm f k then JS.Builtin k else JS.Undefined
        end in
      match keyData with
      | JS.Undefined => respond 404 (ErrorBody "Key not found")
      | JS.Own entry => respond 200 (KeyData entry)
      | JS.Builtin _ => respond 200 BuiltinData
      end
  | _, _ => respond 400 (ErrorBody "Platform and key name required")
  end.

(** Lines 245-272. *)
Definition add_operation (amb : Ambient) (user password salt : string)
    (vault : Vault) (b : Body) : KV Response :=
  match JS.present (platform b), JS.present (keyName b),
        JS.present (keyValue b) with
  | Some p, Some k, Some v =>
      let entry := {| value := v; added := now amb;
                      meta := default ∅ (req_meta b) |} in
      let! vault1 := kv_of (assign_key realm vault p k entry) in
      let updatedVault := encrypt (randomIv amb) vault1 password salt in
      let! _ := kv_set amb (vaultKey user) updatedVault in
      let! _ := kv_set amb (lastModifiedKey user) (nowModified amb) in
      kv_return (respond 200 Success)
  | _, _, _ =>
      kv_return
        (respond 400 (ErrorBody "Platform, key name, and value required"))
  end.

(** Lines 274-301. *)
Definition remove_operation (amb : Ambient) (user password salt : string)
    (vault : Vault) (b : Body) : KV Response :=
  match JS.present (platform b), JS.present (keyName b) with
  | Some p, Some k =>
      if key_missing realm vault p k then
        kv_return (respond 404 (ErrorBody "Key not found"))
      else
        let! vault1 := kv_of (delete_key realm vault p k) in
        let updatedVault := encrypt (randomIv amb) vault1 password salt in
        let! _ := kv_set amb (vaultKey user) updatedVault in
        let! _ := kv_set amb (lastModifiedKey user) (nowModified amb) in
        kv_return (respond 200 Success)
  | _, _ =>
      kv_return (respond 400 (ErrorBody "Platform and key name required"))
  end.

(** Lines 204-305: the body of the inner [try]. *)
Definition vault_operation (amb : Ambient) (user password salt : string)
    (encryptedVault : string) (b : Body) : KV Response :=
  let! vault := kv_of (decrypt encryptedVault password salt) in
  if equals (operation b) "list" then
    kv_return (respond 200 (KeyList (list_keys vault)))
  else if equals (operation b) "get" then
    kv_return (get_operation vault b)
  else if equals (operation b) "add" then
    add_operation amb user password salt vault b
  else if equals (operation b) "remove" then
    remove_operation amb user password salt vault b
  else
    kv_return (respond 400 (ErrorBody "Invalid operation")).

(** Lines 306-309: the [catch] of the inner [try]. *)
Definition invalid_master_password : Response :=
  respond 401 (ErrorBody "Invalid master password").

(** Lines 196-310. *)
Definition vault_post (amb : Ambient) (event : Event)
    (user salt encryptedVault : string) : KV Response :=
  match body event with
  | None => kv_throw SyntaxError
  | Some b =>
      match JS.present (masterPassword b) with
      | None => kv_return (respond 400 (ErrorBody "Master password required"))
      | Some password =>
          kv_try (vault_operation amb user password salt encryptedVault b)
                 (λ _, kv_return invalid_master_password)
      end
  end.

(** Lines 161-313. *)
Definition vault_endpoint (amb : Ambient) (event : Event) : KV Response :=
  match getAuthUser event with
  | None => kv_return (respond 401 (ErrorBody "Unauthorized"))
  | Some user =>
      let! salt := kv_get (saltKey user) in
      match JS.present salt with
      | None => kv_return (respond 404 (ErrorBody "User not found"))
      | Some salt =>
          let! encryptedVault := kv_get (vaultKey user) in
          match JS.present encryptedVault with
          | None => kv_return (respond 404 (ErrorBody "Vault not found"))
          | Some encryptedVault =>
              if String.eqb (httpMethod event) "GET" then
                let! lastModified := kv_get (lastModifiedKey user) in
                kv_return
                  (respond 200 (VaultInfo user (JS.present lastModified)))
              else if String.eqb (httpMethod event) "POST" then
                vault_post amb event user salt encryptedVault
              else
                kv_return (respond 405 (ErrorBody "Method not allowed"))
          end
      end
  end.

(** Lines 315-330. *)
Definition logout : Response :=
  {| statusCode := 200; responseBody := Success;
     setCookie := Some (EmptyString, 0) |}.

(** Lines 84-343. *)
Definition handler (amb : Ambient) (event : Event) (store : Store)
    : Response * Store :=
  if String.eqb (httpMethod event) "OPTIONS" then (respond 204 NoBody, store)
  else
    let routed :=
      if equals (endpoint event) "login" then login amb event
      else if equals (endpoint event) "vault" then vault_endpoint amb event
      else if equals (endpoint event) "logout" then kv_return logout
      else kv_return (respond 404 (ErrorBody "Not found")) in
    match routed store with
    | (inr response, store1) => (response, store1)
    | (inl _, store1) =>
        (respond 500 (ErrorBody "Internal server error"), store1)
    end.

End Handler.

(** ** The class [ApiKeymaster] ([README.md], lines 141-419)

    The object keeps the decrypted vault in memory between calls. The vault
    file is [None] while it does not exist. Objects whose prototype an
    earlier assignment of the name [__proto__] replaced are read as plain
    objects. *)

Module ApiKeymaster.

Record t : Type := {
  masterPassword : option string;
  vault : Vault;
  initialized : bool
}.

(** Lines 142-150. *)
Definition constructor : t :=
  {| masterPassword := None; vault := ∅; initialized := false |}.

Definition with_vault (this : t) (v : Vault) : t :=
  {| masterPassword := masterPassword this; vault := v;
     initialized := initialized this |}.

(** What [console.log] and [console.error] print. *)
Definition Console := list string.

(** The double quote of the messages. *)
Definition quote : string := String (Ascii.ascii_of_nat 34) EmptyString.

(** The line feed. *)
Definition newline : string := String (Ascii.ascii_of_nat 10) EmptyString.

(** One entry of [config.platforms]. [envVar] is the only field the code
    reads; it is [None] for an entry that has none. *)
Record PlatformConfig : Type := {
  name : string;
  urlPattern : string;
  envVar : option string
}.

(** The content of [config.json]. The file is kept as the value that
    [JSON.parse] makes of its text. *)
Record Config : Type := {
  version : string;
  lastAccess : string;
  platforms : gmap string PlatformConfig
}.

(** Lines 161-169; [clock] is [new Date().toISOString()]. *)
Definition defaultConfig (clock : string) : Config :=
  {| version := "1.0.0";
     lastAccess := clock;
     platforms :=
       <["github" := {| name := "GitHub"; urlPattern := "github.com";
                        envVar := Some "GITHUB_TOKEN" |}]>
         (<["replit" := {| name := "Replit"; urlPattern := "replit.com";
                           envVar := Some "REPLIT_TOKEN" |}]>
            {["netlify" := {| name := "Netlify"; urlPattern := "netlify.com";
                              envVar := Some "NETLIFY_AUTH_TOKEN" |}]}) |}.

(** What the class keeps under [vaultPath]: whether the directory exists,
    [config.json] and [vault.enc], each [None] while it does not exist. *)
Record Disk : Type := {
  directory : bool;
  configFile : option Config;
  vaultFile : option Buffer
}.

(** Which calls of [fs] throw during [init]: [mkdirSync] of line 155, and
    [writeFileSync] of line 170 and of line 269. *)
Record Faults : Type := {
  mkdirFails : bool;
  writeConfigFails : bool;
  writeVaultFails : bool
}.

(** What [getKey] returns: [null], the [value] of an entry, or the property
    [value] of a built-in object. *)
Inductive KeyValue : Type :=
| Null
| Value (keyValue : string)
| BuiltinValue.

Section Methods.

Variable realm : JS.Realm.
Variable scryptSync : string → string → Buffer.
Variable gcm_seal : Buffer → Buffer → Buffer → Buffer * Buffer.
Variable gcm_open :
  Buffer → Buffer → Buffer → Buffer → crypto_failure + Buffer.
Variable JSON_stringify : Vault → Buffer.
Variable JSON_parse : Buffer → option Vault.

(** [this.vaultPath], fixed by the constructor (line 143). *)
Variable vaultPath : string.

(** [s.toUpperCase()]. *)
Variable toUpperCase : string → string.

(** [execSync(command, { env, stdio: 'inherit' })]: the output, which is
    [null] when the child writes to the terminal, or the message of the
    error it throws. *)
Variable execSync : string → gmap string string → string + option string.

(** Lines 282-284; [scryptSync] throws on the [null] password of an object
    that was never unlocked. *)
Definition deriveKey (this : t) : exn + Buffer :=
  match masterPassword this with
  | Some password => inr (scryptSync password "api-keymaster-salt")
  | None => inl TypeError
  end.

(** Lines 274-279. *)
Definition parseEncryptedData (data : Buffer) : Buffer * Buffer * Buffer :=
  (take 16 data, take (32 - 16) (drop 16 data), drop 32 data).

(** Lines 251-271; [iv] is the outcome of [crypto.randomBytes(16)] and
    [writeFails] tells whether [fs.writeFileSync] throws. The result is
    the outcome and the vault file. *)
Definition saveVault (iv : Buffer) (writeFails : bool) (this : t)
    (file : option Buffer) : (exn + bool) * option Buffer :=
  match deriveKey this with
  | inl e => (inl e, file)
  | inr key =>
      let '(encrypted, authTag) :=
        gcm_seal key iv (JSON_stringify (vault this)) in
      let dataToStore := (iv ++ authTag ++ encrypted)%list in
      if writeFails then (inl StoreError, file)
      else (inr true, Some dataToStore)
  end.

(** Lines 220-247, after the prompt returned [password]: what is
    printed, how the promise settles, and the object. *)
Definition unlockVault (password : string) (this : t)
    (file : option Buffer) : Console * (exn + unit) * t :=
  let this1 := {| masterPassword := Some password; vault := vault this;
                  initialized := initialized this |} in
  let attempt : exn + Vault :=
    match file with
    | None => inl (Error "ENOENT")
    | Some encryptedData =>
        let '(iv, authTag, encryptedVault) :=
          parseEncryptedData encryptedData in
        match deriveKey this1 with
        | inl e => inl e
        | inr key =>
            match gcm_open key iv authTag encryptedVault with
            | inl why => inl (CryptoError why)
            | inr text =>
                match JSON_parse text with
                | None => inl SyntaxError
                | Some data => inr data
                end
            end
        end
    end in
  match attempt with
  | inr data =>
      (["Vault unlocked successfully!"], inr tt, with_vault this1 data)
  | inl err =>
      (["Failed to unlock vault. Incorrect password?"], inl err, this1)
  end.

(** Lines 287-305; [meta] is the argument after its default [{}]. *)
Definition addKey (iv : Buffer) (clock : string) (writeFails : bool)
    (platform keyName keyValue : string) (meta : gmap string string)
    (this : t) (file : option Buffer)
    : Console * (exn + bool) * t * option Buffer :=
  if negb (initialized this) then
    ([], inl (Error "Vault not initialized"), this, file)
  else
    let entry := {| value := keyValue; added := clock; meta := meta |} in
    match assign_key realm (vault this) platform keyName entry with
    | inl e => ([], inl e, this, file)
    | inr vault1 =>
        let this1 := with_vault this vault1 in
        match saveVault iv writeFails this1 file with
        | (inl e, file1) => ([], inl e, this1, file1)
        | (inr _, file1) =>
            (["Added key " +:+ quote +:+ keyName +:+ quote +:+ " for "
              +:+ platform],
             inr true, this1, file1)
        end
    end.

(** Lines 321-337. *)
Definition listKeys (this : t) : exn + gmap string (list KeyInfo) :=
  if negb (initialized this) then inl (Error "Vault not initialized")
  else inr (list_keys (vault this)).

(** Lines 399-418. *)
Definition removeKey (iv : Buffer) (writeFails : bool)
    (platform keyName : string) (this : t) (file : option Buffer)
    : Console * (exn + bool) * t * option Buffer :=
  if negb (initialized this) then
    ([], inl (Error "Vault not initialized"), this, file)
  else if key_missing realm (vault this) platform keyName then
    ([], inl (Error ("Key not found: " +:+ platform +:+ "/" +:+ keyName)),
     this, file)
  else
    match delete_key realm (vault this) platform keyName with
    | inl e => ([], inl e, this, file)
    | inr vault1 =>
        let this1 := with_vault this vault1 in
        match saveVault iv writeFails this1 file with
        | (inl e, file1) => ([], inl e, this1, file1)
        | (inr _, file1) =>
            (["Removed key " +:+ quote +:+ keyName +:+ quote +:+ " from "
              +:+ platform],
             inr true, this1, file1)
        end
    end.

(** Lines 192-209, after the prompt returned [password]. *)
Definition createVault (iv : Buffer) (writeFails : bool) (password : string)
    (this : t) (file : option Buffer)
    : Console * (exn + unit) * t * option Buffer :=
  if String.eqb password EmptyString || (String.length password <? 8)%nat
  then
    (["Password must be at least 8 characters"],
     inl (Error "Password too short"), this, file)
  else
    let this1 := {| masterPassword := Some password; vault := ∅;
                    initialized := initialized this |} in
    match saveVault iv writeFails this1 file with
    | (inl e, file1) => ([], inl e, this1, file1)
    | (inr _, file1) => (["Vault created successfully!"], inr tt, this1, file1)
    end.

(** Lines 153-182; [password] is what the user types at the prompt of
    [unlockVault] or of [createVault]. The promise resolves with the
    object. *)
Definition init (iv : Buffer) (clock : string) (faults : Faults)
    (password : string) (this : t) (disk : Disk)
    : Console * (exn + unit) * t * Disk :=
  let made : exn + Console * Disk :=
    if directory disk then inr ([], disk)
    else if mkdirFails faults then inl StoreError
    else inr (["Created vault directory at " +:+ vaultPath],
              {| directory := true; configFile := configFile disk;
                 vaultFile := vaultFile disk |}) in
  match made with
  | inl e => ([], inl e, this, disk)
  | inr (console1, disk1) =>
      let configured : exn + Disk :=
        match configFile disk1 with
        | Some _ => inr disk1
        | None =>
            if writeConfigFails faults then inl StoreError
            else inr {| directory := directory disk1;
                        configFile := Some (defaultConfig clock);
                        vaultFile := vaultFile disk1 |}
        end in
      match configured with
      | inl e => (console1, inl e, this, disk1)
      | inr disk2 =>
          let '(console2, outcome, this1, file1) :=
            match vaultFile disk2 with
            | Some _ =>
                let '(console, outcome, this1) :=
                  unlockVault password this (vaultFile disk2) in
                (console, outcome, this1, vaultFile disk2)
            | None =>
                createVault iv (writeVaultFails faults) password this
                  (vaultFile disk2)
            end in
          let disk3 := {| directory := directory disk2;
                          configFile := configFile disk2;
                          vaultFile := file1 |} in
          match outcome with
          | inl e => ((console1 ++ console2)%list, inl e, this1, disk3)
          | inr _ =>
              ((console1 ++ console2)%list, inr tt,
               {| masterPassword := masterPassword this1;
                  vault := vault this1; initialized := true |},
               disk3)
          end
      end
  end.

(** Lines 308-318. *)
Definition getKey (platform keyName : string) (this : t) : exn + KeyValue :=
  if negb (initialized this) then inl (Error "Vault not initialized")
  else if key_missing realm (vault this) platform keyName then inr Null
  else
    match JS.get (vault this) platform with
    | JS.Own keysOfPlatform =>
        match JS.get keysOfPlatform keyName with
        | JS.Own entry => inr (Value (value entry))
        | JS.Builtin _ => inr BuiltinValue
        | JS.Undefined => inl TypeError
        end
    | JS.Builtin _ => inr BuiltinValue
    | JS.Undefined => inl TypeError
    end.

(** [Object.keys(this.vault[platform])] with, for each key, the entry
    [this.vault[platform][keyName]] (lines 359-360 and 389-390). A built-in
    object has no enumerable property of its own. *)
Definition own_entries (found : JS.property Platform)
    : list (string * VaultEntry) :=
  match found with
  | JS.Own keysOfPlatform => map_to_list keysOfPlatform
  | _ => []
  end.

(** Lines 361 and 391:
<<
    platformConfig?.envVar
      || `${platform.toUpperCase()}_${keyName.toUpperCase()}`
>> *)
Definition envVarName (platformConfig : JS.property PlatformConfig)
    (platform keyName : string) : string :=
  let configured :=
    match platformConfig with
    | JS.Own entry => JS.present (envVar entry)
    | _ => None
    end in
  default (toUpperCase platform +:+ "_" +:+ toUpperCase keyName) configured.

(** Lines 356-363: the environment of the child. *)
Definition command_env (platformConfig : JS.property PlatformConfig)
    (platform : string) (entries : list (string * VaultEntry))
    (processEnv : gmap string string) : gmap string string :=
  foldl (λ env kv,
           JS.set env (envVarName platformConfig platform kv.1) (value kv.2))
        processEnv entries.

(** Lines 340-372; [processEnv] is [process.env]. *)
Definition execWithKeys (processEnv : gmap string string)
    (platform command : string) (this : t) (disk : Disk)
    : Console * (exn + option string) :=
  if negb (initialized this) then ([], inl (Error "Vault not initialized"))
  else
    match JS.get (vault this) platform with
    | JS.Undefined =>
        ([], inl (Error ("No keys found for platform: " +:+ platform)))
    | found =>
        match configFile disk with
        | None => ([], inl (Error "ENOENT"))
        | Some config =>
            match JS.get (platforms config) platform with
            | JS.Undefined =>
                ([], inl (Error ("Platform " +:+ platform
                                 +:+ " not configured")))
            | platformConfig =>
                let env :=
                  command_env platformConfig platform (own_entries found)
                    processEnv in
                match execSync command env with
                | inr output => ([], inr output)
                | inl message =>
                    (["Command execution failed: " +:+ message],
                     inl (Error message))
                end
            end
        end
    end.

(** Lines 375-396. *)
Definition exportForShell (platform : string) (this : t) (disk : Disk)
    : exn + string :=
  if negb (initialized this) then inl (Error "Vault not initialized")
  else
    match JS.get (vault this) platform with
    | JS.Undefined => inl (Error ("No keys found for platform: " +:+ platform))
    | found =>
        match configFile disk with
        | None => inl (Error "ENOENT")
        | Some config =>
            let platformConfig := JS.get (platforms config) platform in
            inr (foldl
                   (λ exportCommands kv,
                      exportCommands +:+ "export "
                      +:+ envVarName platformConfig platform kv.1
                      +:+ "=" +:+ quote +:+ value kv.2 +:+ quote +:+ newline)
                   EmptyString (own_entries found))
        end
    end.

End Methods.

End ApiKeymaster.

(** The request body of an operation on the vault. *)
Definition operation_body (password op p k : string) (v : option string)
    (m : option (gmap string string)) : Body :=
  {| username := None; masterPassword := Some password; operation := Some op;
     platform := Some p; keyName := Some k; keyValue := v; req_meta := m |}.

(** ** A small instance of the environment

    Stand-ins for the libraries, small enough to compute with: a key
    derivation that pads, a stream cipher with a tag, base64, JSON
    restricted to the shape of vaults and unsigned tokens. They only have
    to obey the laws assumed below; the tag lengths that [setAuthTag]
    accepts are those of GCM. *)

Module Sample.

Definition realm : JS.Realm :=
  {| JS.builtin_truthy := λ _ _, false;
     JS.builtin_set_throws := λ _ _, false;
     JS.builtin_delete_throws := λ _ _, false |}.

Definition scryptSync (password salt : string) : Buffer :=
  take 32 (list_byte_of_string (password +:+ salt) ++ repeat x00 32)%list.

Definition xor8 (a b : byte) : byte :=
  let '(a0, (a1, (a2, (a3, (a4, (a5, (a6, a7))))))) := Byte.to_bits a in
  let '(b0, (b1, (b2, (b3, (b4, (b5, (b6, b7))))))) := Byte.to_bits b in
  Byte.of_bits
    (xorb a0 b0, (xorb a1 b1, (xorb a2 b2, (xorb a3 b3,
      (xorb a4 b4, (xorb a5 b5, (xorb a6 b6, xorb a7 b7))))))).

(** [text] xor the key stream [stream], which is as long as it lasts. *)
Fixpoint mask (stream text : Buffer) : Buffer :=
  match text, stream with
  | t :: text1, s :: stream1 => xor8 t s :: mask stream1 text1
  | _, _ => text
  end.

(** The 16 bytes that authenticate [ciphertext] under [key] and [iv]. *)
Definition tag16 (key iv ciphertext : Buffer) : Buffer :=
  take 16 (mask key (mask iv (ciphertext ++ repeat x00 16)))%list.

Definition gcm_seal (key iv text : Buffer) : Buffer * Buffer :=
  let ciphertext := mask key text in
  (ciphertext, tag16 key iv ciphertext).

Definition tag_length_ok (n : nat) : bool :=
  bool_decide (n ∈ [4; 8; 12; 13; 14; 15; 16]).

Definition gcm_open (key iv tag ciphertext : Buffer)
    : crypto_failure + Buffer :=
  if Nat.eqb (length iv) 0 then inl InvalidIv
  else if negb (tag_length_ok (length tag)) then inl InvalidAuthTagLength
  else if bool_decide (tag = take (length tag) (tag16 key iv ciphertext))
  then inr (mask key ciphertext)
  else inl Unauthenticated.

(** *** Base64 (RFC 4648) *)

Definition alphabet : string :=
  "ABCDEFGHIJKLMNOPQRSTUVWXYZabcdefghijklmnopqrstuvwxyz0123456789+/".

Definition digit (n : N) : ascii :=
  default "A"%char (list_ascii_of_string alphabet !! N.to_nat n).

Fixpoint index_of (c : ascii) (s : string) : option N :=
  match s with
  | EmptyString => None
  | String d rest =>
      if Ascii.eqb c d then Some 0%N else N.succ <$> index_of c rest
  end.

Definition sextet (c : ascii) : option N := index_of c alphabet.

Fixpoint base64_encode (buf : Buffer) : string :=
  match buf with
  | [] => EmptyString
  | [a] =>
      let x := Byte.to_N a in
      String (digit (x / 4)) (String (digit (x mod 4 * 16)) "==")
  | [a; b] =>
      let x := Byte.to_N a in
      let y := Byte.to_N b in
      String (digit (x / 4))
        (String (digit (x mod 4 * 16 + y / 16))
           (String (digit (y mod 16 * 4)) "="))
  | a :: b :: c :: rest =>
      let x := Byte.to_N a in
      let y := Byte.to_N b in
      let z := Byte.to_N c in
      String (digit (x / 4))
        (String (digit (x mod 4 * 16 + y / 16))
           (String (digit (y mod 16 * 4 + z / 64))
              (String (digit (z mod 64)) (base64_encode rest))))
  end.

Fixpoint sextets (text : string) : list N :=
  match text with
  | EmptyString => []
  | String c rest =>
      match sextet c with
      | Some n => n :: sextets rest
      | None => []
      end
  end.

Definition byte_of (n : N) : byte := default x00 (Byte.of_N n).

Fixpoint bytes (digits : list N) : Buffer :=
  match digits with
  | s0 :: s1 :: s2 :: s3 :: rest =>
      byte_of (s0 * 4 + s1 / 16) :: byte_of (s1 mod 16 * 16 + s2 / 4)
      :: byte_of (s2 mod 4 * 64 + s3) :: bytes rest
  | [s0; s1; s2] =>
      [byte_of (s0 * 4 + s1 / 16); byte_of (s1 mod 16 * 16 + s2 / 4)]
  | [s0; s1] => [byte_of (s0 * 4 + s1 / 16)]
  | _ => []
  end.

Definition base64_decode (text : string) : Buffer := bytes (sextets text).

(** *** JSON text of vaults: objects and strings, without white space *)

Inductive json : Type :=
| Str (s : string)
| Obj (members : list (string * json)).

Definition quote : Ascii.ascii := Ascii.ascii_of_nat 34.
Definition backslash : Ascii.ascii := Ascii.ascii_of_nat 92.

Fixpoint escape (s : string) : string :=
  match s with
  | EmptyString => EmptyString
  | String c rest =>
      if Ascii.eqb c quote || Ascii.eqb c backslash
      then String backslash (String c (escape rest))
      else String c (escape rest)
  end.

Definition print_string (s : string) : string :=
  String quote (escape s +:+ String quote EmptyString).

Fixpoint print (j : json) : string :=
  match j with
  | Str s => print_string s
  | Obj members =>
      let fix print_members (ms : list (string * json)) : string :=
        match ms with
        | [] => EmptyString
        | [(k, v)] => print_string k +:+ ":" +:+ print v
        | (k, v) :: rest =>
            print_string k +:+ ":" +:+ print v +:+ "," +:+ print_members rest
        end in
      "{" +:+ print_members members +:+ "}"
  end.

(** The characters up to the closing quote, and what follows it. *)
Fixpoint parse_string (s : string) : option (string * string) :=
  match s with
  | EmptyString => None
  | String c rest =>
      if Ascii.eqb c quote then Some (EmptyString, rest)
      else if Ascii.eqb c backslash then
        match rest with
        | String d rest1 =>
            match parse_string rest1 with
            | Some (content, rest2) => Some (String d content, rest2)
            | None => None
            end
        | EmptyString => None
        end
      else
        match parse_string rest with
        | Some (content, rest1) => Some (String c content, rest1)
        | None => None
        end
  end.

Fixpoint parse_value (fuel : nat) (s : string) : option (json * string) :=
  match fuel, s with
  | S fuel1, String c rest =>
      if Ascii.eqb c quote then
        match parse_string rest with
        | Some (content, rest1) => Some (Str content, rest1)
        | None => None
        end
      else if Ascii.eqb c "{"%char then
        match rest with
        | String "}"%char rest1 => Some (Obj [], rest1)
        | _ =>
            match parse_members fuel1 rest with
            | Some (members, rest1) => Some (Obj members, rest1)
            | None => None
            end
        end
      else None
  | _, _ => None
  end
with parse_members (fuel : nat) (s : string)
    : option (list (string * json) * string) :=
  match fuel, s with
  | S fuel1, String c rest =>
      if Ascii.eqb c quote then
        match parse_string rest with
        | Some (key, String ":"%char rest1) =>
            match parse_value fuel1 rest1 with
            | Some (v, String ","%char rest2) =>
                match parse_members fuel1 rest2 with
                | Some (more, rest3) => Some ((key, v) :: more, rest3)
                | None => None
                end
            | Some (v, String "}"%char rest2) => Some ([(key, v)], rest2)
            | _ => None
            end
        | _ => None
        end
      else None
  | _, _ => None
  end.

Definition parse (text : string) : option json :=
  match parse_value (S (String.length text)) text with
  | Some (j, EmptyString) => Some j
  | _ => None
  end.

Definition of_meta (m : gmap string string) : json :=
  Obj (prod_map id Str <$> map_to_list m).

Definition of_entry (e : VaultEntry) : json :=
  Obj [("value", Str (value e)); ("added", Str (added e));
       ("meta", of_meta (meta e))].

Definition of_vault (data : Vault) : json :=
  Obj (prod_map id
         (λ keysOfPlatform : Platform,
            Obj (prod_map id of_entry <$> map_to_list keysOfPlatform))
       <$> map_to_list data).

(** The members of an object, each read by [read]. *)
Definition to_map {A} (read : json → option A) (j : json)
    : option (gmap string A) :=
  match j with
  | Obj members =>
      list_to_map <$>
        mapM (λ kv : string * json,
                match read kv.2 with
                | Some a => Some (kv.1, a)
                | None => None
                end) members
  | Str _ => None
  end.

Definition to_string (j : json) : option string :=
  match j with
  | Str s => Some s
  | Obj _ => None
  end.

Definition to_entry (j : json) : option VaultEntry :=
  match j with
  | Obj [(k1, Str v); (k2, Str a); (k3, m)] =>
      if String.eqb k1 "value" && String.eqb k2 "added"
         && String.eqb k3 "meta"
      then
        match to_map to_string m with
        | Some m1 => Some {| value := v; added := a; meta := m1 |}
        | None => None
        end
      else None
  | _ => None
  end.

Definition to_vault (j : json) : option Vault :=
  to_map (to_map to_entry) j.

Definition JSON_stringify (data : Vault) : Buffer :=
  list_byte_of_string (print (of_vault data)).

Definition JSON_parse (text : Buffer) : option Vault :=
  match parse (string_of_list_byte text) with
  | Some j => to_vault j
  | None => None
  end.

Definition jwt_sign (sub : string) : string := "jwt:" +:+ sub.

Definition jwt_verify (token : string) : option string :=
  if String.prefix "jwt:" token
  then Some (String.substring 4 (String.length token - 4) token)
  else None.

(** Two outcomes of [crypto.randomBytes(16)]. *)
Definition iv : Buffer := repeat x01 16.
Definition other_iv : Buffer := repeat x02 16.

(** The user [alice], whose empty vault was created under the password
    [correcthorse123]. *)
Definition blob : string :=
  encrypt scryptSync gcm_seal base64_encode JSON_stringify iv ∅
    "correcthorse123" "00ff".

Definition store : Store :=
  <[vaultKey "alice" := blob]> {[saltKey "alice" := "00ff"]}.

(** The stored blob cut to 31 bytes: the IV and 15 bytes of the tag. *)
Definition short_blob : string :=
  base64_encode (take 31 (base64_decode blob)).

Definition entry : VaultEntry :=
  {| value := "ghp_x"; added := "2024-05-01T10:00:00.000Z"; meta := ∅ |}.

Definition ambient (rejects : bool) : Ambient :=
  {| randomSalt := "a1b2"; randomIv := other_iv;
     now := "2024-05-01T10:00:00.000Z";
     nowModified := "2024-05-01T10:00:00.001Z";
     setRejects := λ _, rejects |}.

(** [POST /vault] by [alice]. *)
Definition vault_event (password op p k : string) (v : option string)
    : Event :=
  {| httpMethod := "POST"; endpoint := Some "vault";
     body := Some (operation_body password op p k v None);
     cookie_token := Some (jwt_sign "alice"); bearer := None |}.

(** Add the key [token] of [github]. *)
Definition add_event (password : string) : Event :=
  vault_event password "add" "github" "token" (Some "ghp_x").

(** [POST /login] by [alice]. *)
Definition login_body (password : string) : Body :=
  {| username := Some "alice"; masterPassword := Some password;
     operation := None; platform := None; keyName := None; keyValue := None;
     req_meta := None |}.

Definition login_event (password : string) : Event :=
  {| httpMethod := "POST"; endpoint := Some "login";
     body := Some (login_body password);
     cookie_token := None; bearer := None |}.

(** An unlocked object of the command line with an empty vault. *)
Definition unlocked : ApiKeymaster.t :=
  {| ApiKeymaster.masterPassword := Some "correcthorse123";
     ApiKeymaster.vault := ∅;
     ApiKeymaster.initialized := true |}.

(** The handler over the sample environment, and a sequence of requests
    against it: the responses, first request first, and the store left. *)
Definition serve (amb : Ambient) (event : Event) (store : Store)
    : Response * Store :=
  handler realm scryptSync gcm_seal gcm_open base64_encode base64_decode
    JSON_stringify JSON_parse jwt_sign jwt_verify amb event store.

Fixpoint serve_all (events : list Event) (store : Store)
    : list Response * Store :=
  match events with
  | [] => ([], store)
  | event :: rest =>
      let '(response, store1) := serve (ambient false) event store in
      let '(responses, store2) := serve_all rest store1 in
      (response :: responses, store2)
  end.


(** [GET /vault] by [alice]. *)
Definition info_event : Event :=
  {| httpMethod := "GET"; endpoint := Some "vault"; body := None;
     cookie_token := Some (jwt_sign "alice"); bearer := None |}.

(** The vault that holds the key [token] of [github], its blob under the
    password of [alice], and the store that holds it. *)
Definition vault_with_key : Vault := {["github" := {["token" := entry]}]}.



(** An unlocked object of the command line that holds the key. *)
Definition unlocked_with_key : ApiKeymaster.t :=
  {| ApiKeymaster.masterPassword := Some "correcthorse123";
     ApiKeymaster.vault := vault_with_key;
     ApiKeymaster.initialized := true |}.

(** Upper case, for the letters of ASCII. *)
Definition upper (c : ascii) : ascii :=
  let n := Ascii.nat_of_ascii c in
  if (97 <=? n)%nat && (n <=? 122)%nat then Ascii.ascii_of_nat (n - 32)
  else c.

Fixpoint toUpperCase (s : string) : string :=
  match s with
  | EmptyString => EmptyString
  | String c rest => String (upper c) (toUpperCase rest)
  end.

(** A child that writes to the terminal and exits with status 0. *)
Definition execSync (command : string) (env : gmap string string)
    : string + option string :=
  inr None.

Definition vaultPath : string := "/home/alice/.api-keymaster".

(** No call of [fs] throws. *)
Definition no_faults : ApiKeymaster.Faults :=
  {| ApiKeymaster.mkdirFails := false;
     ApiKeymaster.writeConfigFails := false;
     ApiKeymaster.writeVaultFails := false |}.

(** A directory in which [init] ran at [clock] and wrote [data]. *)
Definition disk (clock : string) (data : option Buffer) : ApiKeymaster.Disk :=
  {| ApiKeymaster.directory := true;
     ApiKeymaster.configFile := Some (ApiKeymaster.defaultConfig clock);
     ApiKeymaster.vaultFile := data |}.

End Sample.

(** ** Vocabulary of the properties *)

(** No platform of the vault has an empty mapping of keys. *)
Definition no_empty_platform (vault : Vault) : Prop :=
  ∀ p keysOfPlatform, vault !! p = Some keysOfPlatform → keysOfPlatform ≠ ∅.

(** The vaults that [add] and [remove] reach from the empty vault when the
    key names of [add] are taken from [names]. [remove] mutates only after
    the test of line 279 let it pass. *)
Inductive reachable_with (names : string → Prop) (realm : JS.Realm)
    : Vault → Prop :=
| reachable_empty : reachable_with names realm ∅
| reachable_add vault p k entry vault1 :
    reachable_with names realm vault →
    names k →
    assign_key realm vault p k entry = inr vault1 →
    reachable_with names realm vault1
| reachable_remove vault p k vault1 :
    reachable_with names realm vault →
    key_missing realm vault p k = false →
    delete_key realm vault p k = inr vault1 →
    reachable_with names realm vault1.

(** The vaults reachable with any names. *)
Definition reachable (realm : JS.Realm) (vault : Vault) : Prop :=
  reachable_with (λ _, True) realm vault.

(** An entry without its secret. *)
Definition public_part (entry : VaultEntry) : string * gmap string string :=
  (added entry, meta entry).

(** Two vaults that differ at most in the [value] fields of their entries:
    the same platforms, the same key names, and under each key the same
    [added] and [meta]. *)
Definition same_but_values (vault1 vault2 : Vault) : Prop :=
  fmap (M := gmap string) public_part <$> vault1
  = fmap (M := gmap string) public_part <$> vault2.

(** The entry of [platform] and [keyName], when the vault has one. *)
Definition entry_of (vault : Vault) (p k : string) : option VaultEntry :=
  vault !! p ≫= λ keysOfPlatform, keysOfPlatform !! k.

(** An environment whose store accepts every write. *)
Definition calm (salt : string) (iv : Buffer) (t1 t2 : string) : Ambient :=
  {| randomSalt := salt; randomIv := iv; now := t1; nowModified := t2;
     setRejects := λ _, false |}.

(** A [POST] to the endpoint [vault] by an authenticated [user], whose body
    [b] carries the non-empty master password [password]. *)
Definition vault_request (jwt_verify : string → option string)
    (event : Event) (user : string) (b : Body) (password : string) : Prop :=
  httpMethod event = "POST" ∧ endpoint event = Some "vault"
  ∧ getAuthUser jwt_verify event = Some user
  ∧ body event = Some b ∧ JS.present (masterPassword b) = Some password.

(** The store holds the non-empty [salt] and the non-empty [blob] of
    [user]. *)
Definition stored (store : Store) (user salt blob : string) : Prop :=
  JS.present (store !! saltKey user) = Some salt
  ∧ JS.present (store !! vaultKey user) = Some blob.

(** The body [b] asks for an [add] or a [remove] that turns [vault] into
    [vault1]. *)
Definition mutates (realm : JS.Realm) (amb : Ambient) (b : Body)
    (vault vault1 : Vault) : Prop :=
  (operation b = Some "add"
   ∧ ∃ p k v, JS.present (platform b) = Some p
       ∧ JS.present (keyName b) = Some k ∧ JS.present (keyValue b) = Some v
       ∧ assign_key realm vault p k
           {| value := v; added := now amb; meta := default ∅ (req_meta b) |}
         = inr vault1)
  ∨ (operation b = Some "remove"
     ∧ ∃ p k, JS.present (platform b) = Some p
         ∧ JS.present (keyName b) = Some k
         ∧ key_missing realm vault p k = false
         ∧ delete_key realm vault p k = inr vault1).

(** The keys of the store that belong to [user]. *)
Definition user_keys (user : string) : list string :=
  [saltKey user; vaultKey user; lastModifiedKey user].

(** The computation [m] writes no key of the store outside [keys]. *)
Definition kv_writes {A} (keys : list string) (m : KV A) : Prop :=
  ∀ store key, key ∉ keys → (m store).2 !! key = store !! key.

(** The user a request acts for: the [username] of the body at the endpoint
    [login], the subject of the token elsewhere. *)
Definition acting_user (jwt_verify : string → option string) (event : Event)
    : option string :=
  if equals (endpoint event) "login" then
    body event ≫= λ b, JS.present (username b)
  else getAuthUser jwt_verify event.


(** The store accepts every write. *)
Definition accepts (amb : Ambient) : Prop := ∀ key, setRejects amb key = false.

(** The character [c] does not occur in [s]. *)
Definition free_of (c : ascii) (s : string) : Prop :=
  c ∉ list_ascii_of_string s.

(** * Properties *)

(** ** Plain objects *)

Lemma get_own {A} (o : gmap string A) k a :
  o !! k = Some a → JS.get o k = JS.Own a.
Proof. intros E. unfold JS.get. by rewrite E. Qed.

Lemma get_undefined {A} (o : gmap string A) k :
  o !! k = None → JS.inherited k = false → JS.get o k = JS.Undefined.
Proof. intros E1 E2. unfold JS.get. by rewrite E1, E2. Qed.

Lemma get_builtin {A} (o : gmap string A) k :
  o !! k = None → JS.inherited k = true → JS.get o k = JS.Builtin k.
Proof. intros E1 E2. unfold JS.get. by rewrite E1, E2. Qed.

Lemma not_inherited_not_proto k : JS.inherited k = false → k ≠ "__proto__".
Proof. intros E ->. discriminate E. Qed.

Lemma set_insert {A} (o : gmap string A) k v :
  k ≠ "__proto__" → JS.set o k v = <[k:=v]> o.
Proof.
  intros Hk. unfold JS.set. destruct (o !! k); [done|].
  by destruct (String.eqb_spec k "__proto__").
Qed.

Lemma set_own {A} (o : gmap string A) k v :
  is_Some (o !! k) → JS.set o k v = <[k:=v]> o.
Proof. intros [a E]. unfold JS.set. by rewrite E. Qed.

Lemma set_proto_fresh {A} (o : gmap string A) v :
  o !! "__proto__" = None → JS.set o "__proto__" v = o.
Proof. intros E. unfold JS.set. by rewrite E. Qed.

Lemma keys_empty_iff {A} (o : gmap string A) :
  Nat.eqb (length (JS.keys o)) 0 = true ↔ o = ∅.
Proof.
  unfold JS.keys. rewrite Nat.eqb_eq, length_fmap.
  rewrite length_zero_iff_nil. apply map_to_list_empty_iff.
Qed.

Lemma present_Some s t : JS.present s = Some t ↔ s = Some t ∧ t ≠ EmptyString.
Proof.
  destruct s as [s|]; simpl.
  - destruct (String.eqb_spec s EmptyString); split.
    + discriminate.
    + intros [[= ->] Hne]. by destruct Hne.
    + by intros [= <-].
    + by intros [-> _].
  - split; [discriminate|]. by intros [? _].
Qed.

Lemma present_nonempty s : s ≠ EmptyString → JS.present (Some s) = Some s.
Proof. intros Hne. by apply present_Some. Qed.

(** The listing maps every platform to its array, except a platform of the
    name [__proto__]: assigning it to [result] sets the prototype of
    [result] and adds no property. *)
Lemma list_keys_fmap (vault : Vault) :
  list_keys vault = key_infos <$> delete "__proto__" vault.
Proof.
  unfold list_keys.
  apply (map_fold_weak_ind
           (λ result m, result = key_infos <$> delete "__proto__" m)).
  - by rewrite delete_empty, fmap_empty.
  - intros p keysOfPlatform m result Hp ->. unfold JS.set.
    rewrite lookup_fmap. destruct (decide (p = "__proto__")) as [->|Hne].
    + rewrite lookup_delete_eq. simpl. by rewrite delete_insert_eq.
    + rewrite lookup_delete_ne, Hp by done. simpl.
      destruct (String.eqb_spec p "__proto__") as [|_]; [done|].
      by rewrite delete_insert_ne, fmap_insert.
Qed.

Lemma list_keys_plain (vault : Vault) :
  vault !! "__proto__" = None → list_keys vault = key_infos <$> vault.
Proof. intros Hproto. by rewrite list_keys_fmap, delete_id. Qed.

(** ** The mutations *)

Section VaultModel_facts.

Variable realm : JS.Realm.
Implicit Types (vault : Vault) (p k : string) (entry : VaultEntry).

Lemma assign_key_own vault p k entry keysOfPlatform :
  vault !! p = Some keysOfPlatform →
  assign_key realm vault p k entry
  = inr (<[p := JS.set keysOfPlatform k entry]> vault).
Proof.
  intros E. unfold assign_key. rewrite (get_own _ _ _ E). simpl.
  by rewrite (get_own _ _ _ E).
Qed.

Lemma assign_key_fresh vault p k entry :
  vault !! p = None → JS.inherited p = false →
  assign_key realm vault p k entry = inr (<[p := JS.set ∅ k entry]> vault).
Proof.
  intros E Hp. unfold assign_key. rewrite (get_undefined _ _ E Hp). simpl.
  rewrite set_insert by (by apply not_inherited_not_proto).
  rewrite (get_own _ p ∅) by apply lookup_insert_eq.
  by rewrite insert_insert_eq.
Qed.

Lemma assign_key_builtin vault p k entry :
  vault !! p = None → JS.inherited p = true →
  assign_key realm vault p k entry
  = if JS.builtin_set_throws realm p k then inl TypeError else inr vault.
Proof.
  intros E Hp. unfold assign_key. rewrite (get_builtin _ _ E Hp). simpl.
  by rewrite (get_builtin _ _ E Hp).
Qed.

(** For names that [Object.prototype] does not know, the assignment is the
    update of a two-level map. *)
Lemma assign_key_ordinary vault p k entry :
  JS.inherited p = false → k ≠ "__proto__" →
  assign_key realm vault p k entry
  = inr (<[p := <[k := entry]> (default ∅ (vault !! p))]> vault).
Proof.
  intros Hp Hk. destruct (vault !! p) as [keysOfPlatform|] eqn:E; simpl.
  - rewrite (assign_key_own _ _ _ _ _ E). by rewrite set_insert.
  - rewrite (assign_key_fresh _ _ _ _ E Hp). by rewrite set_insert.
Qed.

Lemma key_missing_own vault p k keysOfPlatform :
  vault !! p = Some keysOfPlatform →
  key_missing realm vault p k = JS.falsy (JS.get keysOfPlatform k).
Proof. intros E. unfold key_missing. by rewrite (get_own _ _ _ E). Qed.

Lemma key_missing_ordinary vault p k :
  JS.inherited p = false → JS.inherited k = false →
  key_missing realm vault p k = true ↔ entry_of vault p k = None.
Proof.
  intros Hp Hk. unfold key_missing, entry_of.
  destruct (vault !! p) as [keysOfPlatform|] eqn:E; simpl.
  - rewrite (get_own _ _ _ E). unfold JS.get.
    destruct (keysOfPlatform !! k); simpl; [done|]. by rewrite Hk.
  - by rewrite (get_undefined _ _ E Hp).
Qed.

Lemma delete_key_own vault p k keysOfPlatform :
  vault !! p = Some keysOfPlatform →
  delete_key realm vault p k
  = inr (if decide (delete k keysOfPlatform = ∅) then delete p vault
         else <[p := delete k keysOfPlatform]> vault).
Proof.
  intros E. unfold delete_key. rewrite (get_own _ _ _ E). unfold JS.del.
  destruct (Nat.eqb _ 0) eqn:Hlen.
  - apply keys_empty_iff in Hlen. rewrite decide_True by done.
    by rewrite delete_insert_eq.
  - rewrite decide_False; [done|]. intros Hempty%keys_empty_iff. congruence.
Qed.

Lemma delete_key_builtin vault p k :
  vault !! p = None → JS.inherited p = true →
  delete_key realm vault p k
  = if JS.builtin_delete_throws realm p k then inl TypeError else inr vault.
Proof. intros E Hp. unfold delete_key. by rewrite (get_builtin _ _ E Hp). Qed.

(** [assign_key] keeps the invariant unless it is called with the key name
    [__proto__] for a platform the vault does not have. *)
Lemma assign_key_no_empty_platform vault p k entry vault1 :
  no_empty_platform vault →
  k ≠ "__proto__" ∨ is_Some (vault !! p) →
  assign_key realm vault p k entry = inr vault1 →
  no_empty_platform vault1.
Proof.
  intros Hinv Hside Hassign q keysOfQ Hq.
  destruct (vault !! p) as [keysOfPlatform|] eqn:E.
  - rewrite (assign_key_own _ _ _ _ _ E) in Hassign.
    injection Hassign as <-.
    destruct (decide (p = q)) as [<-|Hne].
    + rewrite lookup_insert_eq in Hq. injection Hq as <-.
      unfold JS.set. destruct (keysOfPlatform !! k) eqn:Ek.
      * apply insert_non_empty.
      * destruct (String.eqb k "__proto__"); [by eapply Hinv|].
        apply insert_non_empty.
    + rewrite lookup_insert_ne in Hq by done. by eapply Hinv.
  - destruct (JS.inherited p) eqn:Hp.
    + rewrite (assign_key_builtin _ _ _ _ E Hp) in Hassign.
      destruct (JS.builtin_set_throws realm p k); [done|].
      injection Hassign as <-. by eapply Hinv.
    + rewrite (assign_key_fresh _ _ _ _ E Hp) in Hassign.
      injection Hassign as <-.
      destruct Hside as [Hk|[? ?]]; [|done].
      rewrite set_insert in Hq by done.
      destruct (decide (p = q)) as [<-|Hne].
      * rewrite lookup_insert_eq in Hq. injection Hq as <-.
        apply insert_non_empty.
      * rewrite lookup_insert_ne in Hq by done. by eapply Hinv.
Qed.

(** [delete_key] prunes: it keeps the invariant, and restores it for the
    platform it touches. *)
Lemma delete_key_no_empty_platform vault p k vault1 :
  no_empty_platform vault →
  delete_key realm vault p k = inr vault1 →
  no_empty_platform vault1.
Proof.
  intros Hinv Hdelete q keysOfQ Hq.
  destruct (vault !! p) as [keysOfPlatform|] eqn:E.
  - rewrite (delete_key_own _ _ _ _ E) in Hdelete. injection Hdelete as <-.
    destruct (decide (delete k keysOfPlatform = ∅)) as [Hempty|Hrest].
    + apply lookup_delete_Some in Hq as [_ Hq]. by eapply Hinv.
    + destruct (decide (p = q)) as [<-|Hne].
      * rewrite lookup_insert_eq in Hq. by injection Hq as <-.
      * rewrite lookup_insert_ne in Hq by done. by eapply Hinv.
  - unfold delete_key, JS.get in Hdelete. rewrite E in Hdelete.
    destruct (JS.inherited p); [|done].
    destruct (JS.builtin_delete_throws realm p k); [done|].
    injection Hdelete as <-. by eapply Hinv.
Qed.

End VaultModel_facts.

(** ** The vault model: removal, overwriting, listing *)

Section VaultModel_more.

Variable realm : JS.Realm.
Implicit Types (vault : Vault) (p k : string) (entry : VaultEntry).

(** X2. Adding a key under a platform the vault does not have and removing
    it again leaves no entry for the platform in the listing, whatever the
    names are. *)
Lemma add_then_remove_prunes vault p k entry vault1 vault2 :
  vault !! p = None →
  assign_key realm vault p k entry = inr vault1 →
  delete_key realm vault1 p k = inr vault2 →
  list_keys vault2 !! p = None.
Proof.
  intros E Hadd Hdel. rewrite list_keys_fmap, lookup_fmap.
  assert (vault2 !! p = None) as Hgone;
    [|by rewrite (proj2 (lookup_delete_None _ _ _)) by by right].
  destruct (JS.inherited p) eqn:Hp.
  - rewrite (assign_key_builtin _ _ _ _ _ E Hp) in Hadd.
    destruct (JS.builtin_set_throws realm p k); [done|].
    injection Hadd as <-.
    rewrite (delete_key_builtin _ _ _ _ E Hp) in Hdel.
    destruct (JS.builtin_delete_throws realm p k); [done|].
    by injection Hdel as <-.
  - rewrite (assign_key_fresh _ _ _ _ _ E Hp) in Hadd. injection Hadd as <-.
    rewrite (delete_key_own _ _ _ _ (JS.set ∅ k entry)) in Hdel
      by apply lookup_insert_eq.
    assert (delete k (JS.set (∅ : Platform) k entry) = ∅) as Hrest.
    { unfold JS.set. rewrite lookup_empty.
      destruct (String.eqb k "__proto__").
      - apply delete_empty.
      - rewrite insert_empty. apply delete_singleton_eq. }
    rewrite decide_True in Hdel by done. injection Hdel as <-.
    by rewrite delete_insert_eq, lookup_delete_eq.
Qed.

(** Two assignments of the same ordinary names leave one entry, the
    second. *)
Lemma assign_key_twice vault p k entry1 entry2 vault1 vault2 :
  JS.inherited p = false → k ≠ "__proto__" →
  assign_key realm vault p k entry1 = inr vault1 →
  assign_key realm vault1 p k entry2 = inr vault2 →
  entry_of vault2 p k = Some entry2
  ∧ vault2 = <[p := <[k := entry2]> (default ∅ (vault !! p))]> vault.
Proof.
  intros Hp Hk Hadd1 Hadd2.
  rewrite assign_key_ordinary in Hadd1 by done. injection Hadd1 as <-.
  rewrite assign_key_ordinary in Hadd2 by done. injection Hadd2 as <-.
  rewrite lookup_insert_eq. simpl. rewrite insert_insert_eq, insert_insert_eq.
  split; [|done]. unfold entry_of. rewrite lookup_insert_eq. simpl.
  apply lookup_insert_eq.
Qed.

(** For ordinary names, [remove] answers not found exactly when the vault
    has no entry, and the vault is then left alone. *)
Lemma key_missing_absent vault p k :
  JS.inherited p = false → JS.inherited k = false →
  entry_of vault p k = None → key_missing realm vault p k = true.
Proof. intros Hp Hk. by apply key_missing_ordinary. Qed.

End VaultModel_more.

(** X1. Every vault reached from the empty vault by [add] and [remove]
    without the key name [__proto__] satisfies the invariant: none of its
    platforms is left without keys. *)
Lemma reachable_no_empty_platform realm (vault : Vault) :
  reachable_with (λ k, k ≠ "__proto__") realm vault →
  no_empty_platform vault.
Proof.
  induction 1 as [|vault p k entry vault1 _ IH Hk Hadd
                  |vault p k vault1 _ IH _ Hdelete].
  - intros p keysOfPlatform Hp. by rewrite lookup_empty in Hp.
  - eapply assign_key_no_empty_platform; [exact IH|by left|exact Hadd].
  - eapply delete_key_no_empty_platform; [exact IH|exact Hdelete].
Qed.

(** C10. The listing is a function of the names, [added] and [meta] alone:
    vaults that differ only in the values of their entries have the same
    listing. *)
Theorem list_keys_hides_values (vault1 vault2 : Vault) :
  same_but_values vault1 vault2 → list_keys vault1 = list_keys vault2.
Proof.
  assert (∀ vault : Vault,
    list_keys vault
    = (λ shape : gmap string (string * gmap string string),
         (λ kv, {| info_name := kv.1; info_added := kv.2.1;
                   info_meta := kv.2.2 |}) <$> map_to_list shape)
      <$> delete "__proto__"
            (fmap (M := gmap string) public_part <$> vault)) as Hfactor.
  { intros vault. rewrite list_keys_fmap, <- fmap_delete.
    rewrite <- map_fmap_compose.
    apply map_fmap_ext. intros p keysOfPlatform _. unfold key_infos. simpl.
    rewrite map_to_list_fmap, <- list_fmap_compose.
    apply list_fmap_ext. by intros _ [k entry] _. }
  intros Hsame. rewrite (Hfactor vault1), (Hfactor vault2).
  by rewrite Hsame.
Qed.

(** C10 for two vaults that hold different tokens under the same key. *)
Lemma list_keys_hides_values_witness :
  list_keys
    {["github" :=
        {["token" := {| value := "ghp_x"; added := "t"; meta := ∅ |}]}]}
  = list_keys
      {["github" :=
          {["token" := {| value := "ghp_y"; added := "t"; meta := ∅ |}]}]}.
Proof. apply list_keys_hides_values. vm_compute. reflexivity. Defined.

(** ** The cipher layer *)

Lemma split_blob (iv authTag encrypted : Buffer) :
  length iv = 16 → length authTag = 16 →
  take 16 (iv ++ authTag ++ encrypted) = iv
  ∧ take (32 - 16) (drop 16 (iv ++ authTag ++ encrypted)) = authTag
  ∧ drop 32 (iv ++ authTag ++ encrypted) = encrypted.
Proof.
  intros Hiv Htag. split; [|split].
  - by rewrite take_app_length' by done.
  - rewrite drop_app_length' by done. by rewrite take_app_length' by done.
  - rewrite app_assoc. rewrite drop_app_length'; [done|].
    rewrite length_app. lia.
Qed.

Section Cipher_claims.

Variable scryptSync : string → string → Buffer.
Variable gcm_seal : Buffer → Buffer → Buffer → Buffer * Buffer.
Variable gcm_open :
  Buffer → Buffer → Buffer → Buffer → crypto_failure + Buffer.
Variable base64_encode : Buffer → string.
Variable base64_decode : string → Buffer.
Variable JSON_stringify : Vault → Buffer.
Variable JSON_parse : Buffer → option Vault.

(** Opening what was sealed under the same key and 16-byte IV gives the
    text back. *)
Hypothesis gcm_open_seal : ∀ key iv text,
  length iv = 16 →
  gcm_open key iv (gcm_seal key iv text).2 (gcm_seal key iv text).1 = inr text.

(** [getAuthTag] returns 16 bytes. *)
Hypothesis gcm_tag_length : ∀ key iv text,
  length (gcm_seal key iv text).2 = 16.

(** GCM is a stream mode: the text is as long as the ciphertext. *)
Hypothesis gcm_open_length : ∀ key iv tag ciphertext text,
  gcm_open key iv tag ciphertext = inr text → length text = length ciphertext.

Hypothesis base64_decode_encode : ∀ buf,
  base64_decode (base64_encode buf) = buf.

(** [JSON.parse('')] throws. *)
Hypothesis JSON_parse_empty : JSON_parse [] = None.

Local Abbreviation encrypt' :=
  (encrypt scryptSync gcm_seal base64_encode JSON_stringify).
Local Abbreviation decrypted' := (decrypted scryptSync gcm_open base64_decode).
Local Abbreviation decrypt' :=
  (decrypt scryptSync gcm_open base64_decode JSON_parse).

Lemma decrypted_encrypt iv (data : Vault) password salt :
  length iv = 16 →
  decrypted' (encrypt' iv data password salt) password salt
  = inr (JSON_stringify data).
Proof.
  intros Hiv. unfold decrypted, encrypt.
  pose proof (gcm_open_seal (deriveKey scryptSync password salt) iv
                (JSON_stringify data) Hiv) as Hopen.
  pose proof (gcm_tag_length (deriveKey scryptSync password salt) iv
                (JSON_stringify data)) as Htag.
  destruct (gcm_seal _ iv _) as [encrypted authTag]. simpl in Hopen, Htag.
  rewrite base64_decode_encode.
  destruct (split_blob iv authTag encrypted Hiv Htag) as (-> & -> & ->).
  by rewrite Hopen.
Qed.

(** C1. Decrypting, with the same password and salt, what [encrypt] made of
    a vault gives the serialization of the vault back, and so [decrypt]
    returns what [JSON.parse] makes of that serialization. *)
Theorem encrypt_decrypt_roundtrip iv (V : Vault) (P salt : string) :
  length iv = 16 →
  decrypted' (encrypt' iv V P salt) P salt = inr (JSON_stringify V)
  ∧ decrypt' (encrypt' iv V P salt) P salt
    = match JSON_parse (JSON_stringify V) with
      | Some data => inr data
      | None => inl SyntaxError
      end.
Proof.
  intros Hiv. split; [by apply decrypted_encrypt|].
  unfold decrypt. by rewrite decrypted_encrypt.
Qed.

Lemma encrypt_iv iv (data : Vault) password salt :
  length iv = 16 →
  take 16 (base64_decode (encrypt' iv data password salt)) = iv.
Proof.
  intros Hiv. unfold encrypt. destruct (gcm_seal _ iv _) as [encrypted authTag].
  rewrite base64_decode_encode. by rewrite take_app_length' by done.
Qed.

(** C9. Two encryptions of the same vault under the same password and salt
    that drew different IVs are different blobs, and each decrypts to the
    serialization of the vault. *)
Theorem encrypt_fresh_iv iv1 iv2 (data : Vault) password salt :
  length iv1 = 16 → length iv2 = 16 → iv1 ≠ iv2 →
  encrypt' iv1 data password salt ≠ encrypt' iv2 data password salt
  ∧ decrypted' (encrypt' iv1 data password salt) password salt
    = inr (JSON_stringify data)
  ∧ decrypted' (encrypt' iv2 data password salt) password salt
    = inr (JSON_stringify data).
Proof.
  intros Hiv1 Hiv2 Hne. split; [|split]; [|by apply decrypted_encrypt..].
  intros Heq. apply Hne.
  rewrite <- (encrypt_iv iv1 data password salt Hiv1).
  rewrite <- (encrypt_iv iv2 data password salt Hiv2).
  by rewrite Heq.
Qed.

(** The decipher can refuse what was sealed only under another key: a
    password that is refused is not the one the vault was encrypted
    under. *)
Lemma refused_password_differs iv (data : Vault) P1 P2 salt why :
  length iv = 16 →
  gcm_open (deriveKey scryptSync P2 salt) iv
    (gcm_seal (deriveKey scryptSync P1 salt) iv (JSON_stringify data)).2
    (gcm_seal (deriveKey scryptSync P1 salt) iv (JSON_stringify data)).1
  = inl why →
  P1 ≠ P2.
Proof.
  intros Hiv Hrefused ->. by rewrite gcm_open_seal in Hrefused.
Qed.

(** C8, as the code has it. A blob of less than 32 bytes leaves no
    ciphertext: [decrypt] throws, either the exception of the decipher or,
    when the decipher accepts the short IV and tag, the [SyntaxError] of
    [JSON.parse] on the empty text. No length is tested and no exception of
    its own is raised. *)
Theorem short_blob_fails (blob password salt : string) :
  length (base64_decode blob) < 32 →
  (∃ why, decrypt' blob password salt = inl (CryptoError why))
  ∨ decrypt' blob password salt = inl SyntaxError.
Proof.
  intros Hshort. unfold decrypt, decrypted.
  rewrite (drop_ge _ 32) by lia.
  destruct (gcm_open _ _ _ []) as [why|text] eqn:Hopen; [by eauto|].
  right. apply gcm_open_length in Hopen.
  destruct text; [|done]. by rewrite JSON_parse_empty.
Qed.

End Cipher_claims.

(** ** The class *)

Section ApiKeymaster_facts.

Variable realm : JS.Realm.
Variable scryptSync : string → string → Buffer.
Variable gcm_seal : Buffer → Buffer → Buffer → Buffer * Buffer.
Variable gcm_open :
  Buffer → Buffer → Buffer → Buffer → crypto_failure + Buffer.
Variable JSON_stringify : Vault → Buffer.
Variable JSON_parse : Buffer → option Vault.

Hypothesis gcm_open_seal : ∀ key iv text,
  length iv = 16 →
  gcm_open key iv (gcm_seal key iv text).2 (gcm_seal key iv text).1 = inr text.

Hypothesis gcm_tag_length : ∀ key iv text,
  length (gcm_seal key iv text).2 = 16.

Local Abbreviation saveVault' :=
  (ApiKeymaster.saveVault scryptSync gcm_seal JSON_stringify).
Local Abbreviation unlockVault' :=
  (ApiKeymaster.unlockVault scryptSync gcm_open JSON_parse).


(** Whatever makes [unlockVault] fail, it prints the same line. *)
Lemma unlockVault_failure password this file console e this1 :
  unlockVault' password this file = (console, inl e, this1) →
  console = ["Failed to unlock vault. Incorrect password?"].
Proof.
  unfold ApiKeymaster.unlockVault. intros Hunlock.
  destruct file as [encryptedData|]; [|by injection Hunlock as <- _ _].
  destruct (ApiKeymaster.parseEncryptedData encryptedData)
    as [[iv authTag] encryptedVault].
  destruct (ApiKeymaster.deriveKey _ _) as [e1|key];
    [by injection Hunlock as <- _ _|].
  destruct (gcm_open key iv authTag encryptedVault) as [why|text];
    [by injection Hunlock as <- _ _|].
  destruct (JSON_parse text) as [data|]; [done|].
  by injection Hunlock as <- _ _.
Qed.

End ApiKeymaster_facts.

(** ** The sample instance obeys the laws *)

Lemma xor8_involutive a b : Sample.xor8 (Sample.xor8 a b) b = a.
Proof.
  unfold Sample.xor8.
  destruct (Byte.to_bits a) as (a0 & a1 & a2 & a3 & a4 & a5 & a6 & a7) eqn:Ea.
  destruct (Byte.to_bits b) as (b0 & b1 & b2 & b3 & b4 & b5 & b6 & b7) eqn:Eb.
  rewrite Byte.to_bits_of_bits.
  rewrite !Bool.xorb_assoc, !Bool.xorb_nilpotent, !Bool.xorb_false_r.
  rewrite <- Ea. apply Byte.of_bits_to_bits.
Qed.

Lemma mask_involutive stream text :
  Sample.mask stream (Sample.mask stream text) = text.
Proof.
  revert stream. induction text as [|t text IH]; intros [|s stream]; simpl;
    try done.
  by rewrite xor8_involutive, IH.
Qed.

Lemma length_mask stream text : length (Sample.mask stream text) = length text.
Proof.
  revert stream. induction text as [|t text IH]; intros [|s stream]; simpl;
    try done.
  by rewrite IH.
Qed.

Lemma length_tag16 key iv ciphertext :
  length (Sample.tag16 key iv ciphertext) = 16.
Proof.
  unfold Sample.tag16.
  rewrite length_take, !length_mask, length_app, repeat_length. lia.
Qed.

Lemma sample_open_seal key iv text :
  length iv = 16 →
  Sample.gcm_open key iv (Sample.gcm_seal key iv text).2
    (Sample.gcm_seal key iv text).1 = inr text.
Proof.
  intros Hiv. unfold Sample.gcm_open, Sample.gcm_seal. simpl.
  rewrite Hiv, length_tag16. simpl.
  rewrite bool_decide_eq_true_2.
  - by rewrite mask_involutive.
  - symmetry. apply take_ge. by rewrite length_tag16.
Qed.

Lemma sample_tag_length key iv text :
  length (Sample.gcm_seal key iv text).2 = 16.
Proof. apply length_tag16. Qed.

Lemma sample_open_length key iv tag ciphertext text :
  Sample.gcm_open key iv tag ciphertext = inr text →
  length text = length ciphertext.
Proof.
  unfold Sample.gcm_open. intros Hopen.
  destruct (Nat.eqb _ 0); [done|].
  destruct (negb _); [done|].
  destruct (bool_decide _); [|done].
  injection Hopen as <-. apply length_mask.
Qed.

Lemma sextet_digit n : (n < 64)%N → Sample.sextet (Sample.digit n) = Some n.
Proof.
  intros Hn. rewrite <- (N2Nat.id n).
  assert (N.to_nat n < 64) as Hk by lia.
  generalize dependent (N.to_nat n). clear. intros k Hk.
  do 64 (destruct k as [|k]; [vm_compute; reflexivity|]). lia.
Qed.

Lemma byte_of_to_N b : Sample.byte_of (Byte.to_N b) = b.
Proof. unfold Sample.byte_of. by rewrite Byte.of_to_N. Qed.

Ltac euclid := zify; Z.to_euclidean_division_equations; lia.

Lemma first_byte (x y : N) :
  (x < 256 → y < 256 →
   x / 4 < 64 ∧ x mod 4 * 16 + y / 16 < 64
   ∧ x / 4 * 4 + (x mod 4 * 16 + y / 16) / 16 = x)%N.
Proof. intros. repeat split; euclid. Qed.

Lemma second_byte (x y z : N) :
  (y < 256 → z < 256 →
   y mod 16 * 4 + z / 64 < 64
   ∧ (x mod 4 * 16 + y / 16) mod 16 * 16 + (y mod 16 * 4 + z / 64) / 4 = y)%N.
Proof. intros. repeat split; euclid. Qed.

Lemma third_byte (y z : N) :
  (z < 256 →
   z mod 64 < 64 ∧ (y mod 16 * 4 + z / 64) mod 4 * 64 + z mod 64 = z)%N.
Proof. intros. repeat split; euclid. Qed.

Lemma sextets_digit n rest :
  (n < 64)%N →
  Sample.sextets (String (Sample.digit n) rest) = n :: Sample.sextets rest.
Proof. intros Hn. simpl. by rewrite sextet_digit. Qed.

Lemma to_N_lt b : (Byte.to_N b < 256)%N.
Proof. pose proof (Byte.to_N_bounded b). lia. Qed.

Lemma sample_decode_encode buf :
  Sample.base64_decode (Sample.base64_encode buf) = buf.
Proof.
  unfold Sample.base64_decode.
  assert (∀ (n : nat) (buf : Buffer),
            (length buf ≤ n)%nat →
            Sample.bytes (Sample.sextets (Sample.base64_encode buf)) = buf)
    as Hall; [|by apply (Hall (length buf))].
  clear buf. induction n as [|n IH]; intros [|a [|b [|c rest]]] Hlen;
    simpl in Hlen; try lia; try done.
  - pose proof (to_N_lt a).
    cbn [Sample.base64_encode]. rewrite !sextets_digit by euclid.
    cbn [Sample.sextets Sample.bytes].
    change (Sample.sextet "=") with (@None N). cbn [Sample.bytes].
    rewrite <- (byte_of_to_N a) at 3. do 2 f_equal. euclid.
  - pose proof (to_N_lt a). pose proof (to_N_lt b).
    cbn [Sample.base64_encode]. rewrite !sextets_digit by euclid.
    cbn [Sample.sextets Sample.bytes].
    change (Sample.sextet "=") with (@None N). cbn [Sample.bytes].
    rewrite <- (byte_of_to_N a) at 4. rewrite <- (byte_of_to_N b) at 4.
    f_equal; [f_equal; euclid|]. f_equal. f_equal. euclid.
  - pose proof (to_N_lt a). pose proof (to_N_lt b). pose proof (to_N_lt c).
    cbn [Sample.base64_encode]. rewrite !sextets_digit by euclid.
    cbn [Sample.bytes]. rewrite IH by lia.
    destruct (first_byte (Byte.to_N a) (Byte.to_N b)) as (_ & _ & ->);
      [done..|].
    destruct (second_byte (Byte.to_N a) (Byte.to_N b) (Byte.to_N c))
      as (_ & ->); [done..|].
    destruct (third_byte (Byte.to_N b) (Byte.to_N c)) as (_ & ->); [done|].
    by rewrite !byte_of_to_N.
Qed.

Lemma sample_encode_nonempty buf :
  buf ≠ [] → Sample.base64_encode buf ≠ EmptyString.
Proof. by destruct buf as [|a [|b [|c rest]]]. Qed.

Lemma sample_parse_empty : Sample.JSON_parse [] = None.
Proof. reflexivity. Qed.

(** ** The cipher layer at sample inputs *)

(** C1 for the empty vault under the sample libraries. *)
Lemma encrypt_decrypt_roundtrip_witness :
  decrypted Sample.scryptSync Sample.gcm_open Sample.base64_decode
    (encrypt Sample.scryptSync Sample.gcm_seal Sample.base64_encode
       Sample.JSON_stringify Sample.iv ∅ "correcthorse123" "00ff")
    "correcthorse123" "00ff"
  = inr (Sample.JSON_stringify ∅)
  ∧ decrypt Sample.scryptSync Sample.gcm_open Sample.base64_decode
      Sample.JSON_parse
      (encrypt Sample.scryptSync Sample.gcm_seal Sample.base64_encode
         Sample.JSON_stringify Sample.iv ∅ "correcthorse123" "00ff")
      "correcthorse123" "00ff"
    = match Sample.JSON_parse (Sample.JSON_stringify ∅) with
      | Some data => inr data
      | None => inl SyntaxError
      end.
Proof.
  apply (encrypt_decrypt_roundtrip Sample.scryptSync Sample.gcm_seal
           Sample.gcm_open Sample.base64_encode Sample.base64_decode
           Sample.JSON_stringify Sample.JSON_parse
           sample_open_seal sample_tag_length sample_decode_encode).
  reflexivity.
Defined.

(** C9 for the empty vault and the two sample IVs. *)
Lemma encrypt_fresh_iv_witness :
  encrypt Sample.scryptSync Sample.gcm_seal Sample.base64_encode
    Sample.JSON_stringify Sample.iv ∅ "correcthorse123" "00ff"
  ≠ encrypt Sample.scryptSync Sample.gcm_seal Sample.base64_encode
      Sample.JSON_stringify Sample.other_iv ∅ "correcthorse123" "00ff"
  ∧ decrypted Sample.scryptSync Sample.gcm_open Sample.base64_decode
      (encrypt Sample.scryptSync Sample.gcm_seal Sample.base64_encode
         Sample.JSON_stringify Sample.iv ∅ "correcthorse123" "00ff")
      "correcthorse123" "00ff"
    = inr (Sample.JSON_stringify ∅)
  ∧ decrypted Sample.scryptSync Sample.gcm_open Sample.base64_decode
      (encrypt Sample.scryptSync Sample.gcm_seal Sample.base64_encode
         Sample.JSON_stringify Sample.other_iv ∅ "correcthorse123" "00ff")
      "correcthorse123" "00ff"
    = inr (Sample.JSON_stringify ∅).
Proof.
  apply (encrypt_fresh_iv Sample.scryptSync Sample.gcm_seal
           Sample.gcm_open Sample.base64_encode Sample.base64_decode
           Sample.JSON_stringify
           sample_open_seal sample_tag_length sample_decode_encode).
  - reflexivity.
  - reflexivity.
  - discriminate.
Defined.

(** C8 for a blob of three bytes. *)
Lemma short_blob_fails_witness :
  (∃ why, decrypt Sample.scryptSync Sample.gcm_open Sample.base64_decode
            Sample.JSON_parse "AAAA" "correcthorse123" "00ff"
          = inl (CryptoError why))
  ∨ decrypt Sample.scryptSync Sample.gcm_open Sample.base64_decode
      Sample.JSON_parse "AAAA" "correcthorse123" "00ff"
    = inl SyntaxError.
Proof.
  apply (short_blob_fails Sample.scryptSync Sample.gcm_open
           Sample.base64_decode Sample.JSON_parse
           sample_open_length sample_parse_empty).
  vm_compute. lia.
Defined.

(** ** The handler *)

Section Handler_claims.

Variable realm : JS.Realm.
Variable scryptSync : string → string → Buffer.
Variable gcm_seal : Buffer → Buffer → Buffer → Buffer * Buffer.
Variable gcm_open :
  Buffer → Buffer → Buffer → Buffer → crypto_failure + Buffer.
Variable base64_encode : Buffer → string.
Variable base64_decode : string → Buffer.
Variable JSON_stringify : Vault → Buffer.
Variable JSON_parse : Buffer → option Vault.
Variable jwt_sign : string → string.
Variable jwt_verify : string → option string.

Local Abbreviation encrypt' :=
  (encrypt scryptSync gcm_seal base64_encode JSON_stringify).
Local Abbreviation decrypt' :=
  (decrypt scryptSync gcm_open base64_decode JSON_parse).
Local Abbreviation vault_operation' :=
  (vault_operation realm scryptSync gcm_seal gcm_open base64_encode
     base64_decode JSON_stringify JSON_parse).
Local Abbreviation add_operation' :=
  (add_operation realm scryptSync gcm_seal base64_encode JSON_stringify).
Local Abbreviation remove_operation' :=
  (remove_operation realm scryptSync gcm_seal base64_encode JSON_stringify).
Local Abbreviation handler' :=
  (handler realm scryptSync gcm_seal gcm_open base64_encode base64_decode
     JSON_stringify JSON_parse jwt_sign jwt_verify).

(** A request to the vault runs the inner [try] on the stored blob; what it
    throws is answered by the [catch] of line 306. *)
Lemma handler_vault_post amb event store user b password salt blob :
  vault_request jwt_verify event user b password →
  stored store user salt blob →
  handler' amb event store
  = match vault_operation' amb user password salt blob b store with
    | (inr response, store1) => (response, store1)
    | (inl _, store1) => (invalid_master_password, store1)
    end.
Proof.
  intros (Hmethod & Hendpoint & Huser & Hbody & Hpassword) [Hsalt Hblob].
  unfold handler, vault_endpoint, vault_post, kv_bind, kv_get, kv_try.
  rewrite Hmethod, Hendpoint, Huser. simpl.
  rewrite Hsalt, Hblob, Hbody, Hpassword.
  by destruct (vault_operation' _ _ _ _ _ _ _) as [[e|response] store1].
Qed.


Lemma vaultKey_lastModifiedKey user : lastModifiedKey user ≠ vaultKey user.
Proof.
  unfold lastModifiedKey, vaultKey. intros Heq.
  apply (inj (String.app "user:")) in Heq.
  by apply (inj (String.app user)) in Heq.
Qed.

(** What the handler answers to an [add] or a [remove] that mutates the
    decrypted vault, by the writes the store accepts. *)
Lemma handler_mutation amb event store user b password salt blob V V1 :
  vault_request jwt_verify event user b password →
  stored store user salt blob →
  decrypt' blob password salt = inr V →
  mutates realm amb b V V1 →
  handler' amb event store
  = if setRejects amb (vaultKey user) then (invalid_master_password, store)
    else if setRejects amb (lastModifiedKey user) then
      (invalid_master_password,
       <[vaultKey user := encrypt' (randomIv amb) V1 password salt]> store)
    else
      (respond 200 Success,
       <[lastModifiedKey user := nowModified amb]>
         (<[vaultKey user := encrypt' (randomIv amb) V1 password salt]> store)).
Proof.
  intros Hrequest Hstored Hdecrypt Hmutates.
  rewrite (handler_vault_post _ _ _ _ _ _ _ _ Hrequest Hstored).
  unfold vault_operation, kv_bind. rewrite Hdecrypt. simpl.
  destruct Hmutates as [[Hop (p & k & v & Hp & Hk & Hv & Hassign)]
                       |[Hop (p & k & Hp & Hk & Hfound & Hdelete)]];
    rewrite Hop; simpl.
  - unfold add_operation, kv_bind, kv_set. rewrite Hp, Hk, Hv, Hassign. simpl.
    destruct (setRejects amb (vaultKey user)); [done|].
    by destruct (setRejects amb (lastModifiedKey user)).
  - unfold remove_operation, kv_bind, kv_set.
    rewrite Hp, Hk, Hfound, Hdelete. simpl.
    destruct (setRejects amb (vaultKey user)); [done|].
    by destruct (setRejects amb (lastModifiedKey user)).
Qed.

(** *** Login *)

(** [jwt.verify] accepts what [jwt.sign] issued under the same secret, as
    long as the token has not expired, and returns its [sub]. *)
Hypothesis jwt_verify_sign : ∀ sub, jwt_verify (jwt_sign sub) = Some sub.

(** C4. For a user whose salt and vault are in the store, [login] with any
    non-empty master password answers 200 with a token that [verifyToken]
    accepts for that user, and leaves the store as it is. The stored vault
    is not decrypted: the answer is the same for every password and every
    decipher. *)
Theorem login_accepts_any_password amb event store b user password salt blob :
  httpMethod event = "POST" → endpoint event = Some "login" →
  body event = Some b →
  username b = Some user → user ≠ EmptyString →
  masterPassword b = Some password → password ≠ EmptyString →
  store !! saltKey user = Some salt → salt ≠ EmptyString →
  store !! vaultKey user = Some blob → blob ≠ EmptyString →
  handler' amb event store
  = ({| statusCode := 200;
        responseBody := SuccessToken (generateToken jwt_sign user);
        setCookie := Some (generateToken jwt_sign user, 3600) |}, store)
  ∧ verifyToken jwt_verify (generateToken jwt_sign user) = Some user.
Proof.
  intros Hmethod Hendpoint Hbody Huser Hu Hpassword Hp Hsalt Hs Hblob Hb.
  split; [|apply jwt_verify_sign].
  unfold handler, login, kv_bind, kv_get, kv_return.
  rewrite Hmethod, Hendpoint, Hbody, Huser, Hpassword.
  rewrite !present_nonempty by done. cbn -[JS.present saltKey vaultKey].
  rewrite Hsalt, present_nonempty by done. cbn -[JS.present saltKey vaultKey].
  by rewrite Hblob, present_nonempty by done.
Qed.

(** *** Wrong password *)

Hypothesis gcm_tag_length : ∀ key iv text,
  length (gcm_seal key iv text).2 = 16.

Hypothesis base64_decode_encode : ∀ buf,
  base64_decode (base64_encode buf) = buf.

Hypothesis base64_encode_nonempty : ∀ buf,
  buf ≠ [] → base64_encode buf ≠ EmptyString.

Lemma encrypt_nonempty iv (data : Vault) password salt :
  length iv = 16 → encrypt' iv data password salt ≠ EmptyString.
Proof.
  intros Hiv. unfold encrypt. destruct (gcm_seal _ iv _) as [encrypted authTag].
  apply base64_encode_nonempty. by destruct iv.
Qed.



(** *** Persistence *)

Local Abbreviation addKey' :=
  (ApiKeymaster.addKey realm scryptSync gcm_seal JSON_stringify).
Local Abbreviation removeKey' :=
  (ApiKeymaster.removeKey realm scryptSync gcm_seal JSON_stringify).

(** C3, as the code has it. An [add] or [remove] is answered with success
    only when the store holds the encryption of the mutated vault; when the
    store rejects that write no success is answered and the store is left as
    it was. The object of the command line keeps no copy of the vault to go
    back to: [addKey] and [removeKey] return [true] when the file was
    written and reject with the error of the write when it was not, the
    file then being as before, and in both cases [this.vault] is the
    mutated vault. *)
Theorem success_only_after_persist
    amb event store user b password salt blob (V V1 : Vault) r store1 :
  vault_request jwt_verify event user b password →
  stored store user salt blob →
  decrypt' blob password salt = inr V →
  mutates realm amb b V V1 →
  handler' amb event store = (r, store1) →
  (statusCode r = 200 →
   store1 !! vaultKey user
   = Some (encrypt' (randomIv amb) V1 password salt))
  ∧ (setRejects amb (vaultKey user) = true →
     statusCode r ≠ 200 ∧ store1 = store)
  ∧ (∀ this file iv clock writeFails p k v m W,
       ApiKeymaster.initialized this = true →
       is_Some (ApiKeymaster.masterPassword this) →
       assign_key realm (ApiKeymaster.vault this) p k
         {| value := v; added := clock; meta := m |} = inr W →
       ∃ console written,
         addKey' iv clock writeFails p k v m this file
         = (console, if writeFails then inl StoreError else inr true,
            ApiKeymaster.with_vault this W,
            if writeFails then file else Some written))
  ∧ (∀ this file iv writeFails p k W,
       ApiKeymaster.initialized this = true →
       is_Some (ApiKeymaster.masterPassword this) →
       key_missing realm (ApiKeymaster.vault this) p k = false →
       delete_key realm (ApiKeymaster.vault this) p k = inr W →
       ∃ console written,
         removeKey' iv writeFails p k this file
         = (console, if writeFails then inl StoreError else inr true,
            ApiKeymaster.with_vault this W,
            if writeFails then file else Some written)).
Proof.
  intros Hrequest Hstored Hdecrypt Hmutates Hhandler.
  rewrite (handler_mutation _ _ _ _ _ _ _ _ _ _ Hrequest Hstored Hdecrypt
             Hmutates) in Hhandler.
  split; [|split; [|split]].
  - intros Hsuccess.
    destruct (setRejects amb (vaultKey user));
      [by injection Hhandler as <- <-|].
    destruct (setRejects amb (lastModifiedKey user));
      [by injection Hhandler as <- <-|].
    injection Hhandler as <- <-.
    rewrite lookup_insert_ne by apply vaultKey_lastModifiedKey.
    apply lookup_insert_eq.
  - intros Hrejects. rewrite Hrejects in Hhandler.
    by injection Hhandler as <- <-.
  - intros this file iv clock writeFails p k v m W Hinit [pw Hpw] Hassign.
    unfold ApiKeymaster.addKey, ApiKeymaster.saveVault, ApiKeymaster.deriveKey.
    rewrite Hinit, Hassign. simpl. rewrite Hpw.
    destruct (gcm_seal _ _ _) as [encrypted authTag].
    destruct writeFails; eauto.
  - intros this file iv writeFails p k W Hinit [pw Hpw] Hfound Hdelete.
    unfold ApiKeymaster.removeKey, ApiKeymaster.saveVault,
      ApiKeymaster.deriveKey.
    rewrite Hinit, Hfound, Hdelete. simpl. rewrite Hpw.
    destruct (gcm_seal _ _ _) as [encrypted authTag].
    destruct writeFails; eauto.
Qed.

(** *** Names that [Object.prototype] knows *)

(** C5. The invariant fails on a reachable vault. From the empty vault,
    [add] with the platform [github] and the key name [__proto__] creates the
    platform, passes through the setter of [Object.prototype], which stores
    no own property, answers success and persists a vault whose platform
    [github] has no key; the listing shows the platform with nothing
    under it. *)
Theorem empty_platform_reachable user password salt rs iv t1 t2 store :
  add_operation' (calm rs iv t1 t2) user password salt ∅
    (operation_body password "add" "github" "__proto__" (Some "x") None) store
  = (inr (respond 200 Success),
     <[lastModifiedKey user := t2]>
       (<[vaultKey user := encrypt' iv {["github" := ∅]} password salt]> store))
  ∧ reachable realm {["github" := ∅]}
  ∧ ¬ no_empty_platform {["github" := ∅]}
  ∧ list_keys {["github" := ∅]} = {["github" := []]}.
Proof.
  assert (∀ entry, assign_key realm ∅ "github" "__proto__" entry
                   = inr {["github" := ∅]}) as Hadd.
  { intros entry. rewrite assign_key_fresh by done.
    by rewrite set_proto_fresh. }
  split; [|split; [|split]].
  - unfold add_operation, kv_bind, kv_set. simpl. by rewrite Hadd.
  - eapply reachable_add; [apply reachable_empty|done|].
    apply (Hadd {| value := "x"; added := t1; meta := ∅ |}).
  - intros Hinv. by apply (Hinv "github" ∅); [apply lookup_singleton_eq|].
  - rewrite list_keys_plain by done. by rewrite map_fmap_singleton.
Qed.

(** C6. Overwriting fails for the key name [__proto__]: two [add]s of the
    platform [github] and that key name are both answered with success, and
    the vault persisted by the second has no entry for them. Nor does [add]
    create the platform [constructor]: [vault["constructor"]] is the
    inherited function, and the entry is written into it. *)
Theorem add_twice_stores_nothing user password salt rs iv t1 t2 store :
  add_operation' (calm rs iv t1 t2) user password salt ∅
    (operation_body password "add" "github" "__proto__" (Some "v1") None) store
  = (inr (respond 200 Success),
     <[lastModifiedKey user := t2]>
       (<[vaultKey user := encrypt' iv {["github" := ∅]} password salt]> store))
  ∧ add_operation' (calm rs iv t1 t2) user password salt {["github" := ∅]}
      (operation_body password "add" "github" "__proto__" (Some "v2") None)
      store
    = (inr (respond 200 Success),
       <[lastModifiedKey user := t2]>
         (<[vaultKey user := encrypt' iv {["github" := ∅]} password salt]>
            store))
  ∧ entry_of {["github" := ∅]} "github" "__proto__" = None
  ∧ (∀ entry vault1,
       assign_key realm ∅ "constructor" "k" entry = inr vault1 → vault1 = ∅).
Proof.
  split; [|split; [|split]].
  - unfold add_operation, kv_bind, kv_set. simpl.
    rewrite assign_key_fresh by done. by rewrite set_proto_fresh.
  - unfold add_operation, kv_bind, kv_set. simpl.
    rewrite (assign_key_own _ _ _ _ _ ∅) by apply lookup_singleton_eq.
    rewrite set_proto_fresh by done. by rewrite insert_singleton_eq.
  - unfold entry_of. by rewrite lookup_singleton_eq.
  - intros entry vault1. rewrite assign_key_builtin by done.
    destruct (JS.builtin_set_throws realm "constructor" "k"); [done|].
    by intros [= <-].
Qed.

(** C7. The test of [remove] misses a case. A key name that
    [Object.prototype] knows is found on every platform: removing the key
    [toString], which the platform [github] does not have, is answered with
    success instead of not found, and the vault is written back as it
    was. *)
Theorem inherited_key_is_not_missing
    entry user password salt rs iv t1 t2 store :
  entry_of {["github" := {["token" := entry]}]} "github" "toString" = None
  ∧ remove_operation' (calm rs iv t1 t2) user password salt
      {["github" := {["token" := entry]}]}
      (operation_body password "remove" "github" "toString" None None) store
    = (inr (respond 200 Success),
       <[lastModifiedKey user := t2]>
         (<[vaultKey user :=
              encrypt' iv {["github" := {["token" := entry]}]} password salt]>
            store)).
Proof.
  split.
  - unfold entry_of. by rewrite lookup_singleton_eq.
  - unfold remove_operation, kv_bind, kv_set. simpl.
    rewrite (key_missing_own _ _ _ _ {["token" := entry]})
      by apply lookup_singleton_eq.
    rewrite (delete_key_own _ _ _ _ {["token" := entry]})
      by apply lookup_singleton_eq.
    rewrite delete_singleton_ne by done.
    rewrite decide_False by apply insert_non_empty.
    by rewrite insert_singleton_eq.
Qed.

End Handler_claims.

(** ** The handler at sample inputs *)

Lemma substring_all s : String.substring 0 (String.length s) s = s.
Proof. induction s as [|c s IH]; simpl; [done|]. by rewrite IH. Qed.

Lemma sample_verify_sign sub :
  Sample.jwt_verify (Sample.jwt_sign sub) = Some sub.
Proof.
  unfold Sample.jwt_verify, Sample.jwt_sign. simpl.
  change (EmptyString +:+ sub) with sub.
  rewrite Nat.sub_0_r, substring_all. by destruct sub.
Qed.

(** C4 for [alice], who logs in with a password that is not hers. *)
Lemma login_accepts_any_password_witness :
  handler Sample.realm Sample.scryptSync Sample.gcm_seal Sample.gcm_open
    Sample.base64_encode Sample.base64_decode Sample.JSON_stringify
    Sample.JSON_parse Sample.jwt_sign Sample.jwt_verify
    (Sample.ambient false) (Sample.login_event "not the password")
    Sample.store
  = ({| statusCode := 200;
        responseBody := SuccessToken (generateToken Sample.jwt_sign "alice");
        setCookie := Some (generateToken Sample.jwt_sign "alice", 3600) |},
     Sample.store)
  ∧ verifyToken Sample.jwt_verify (generateToken Sample.jwt_sign "alice")
    = Some "alice".
Proof.
  apply (login_accepts_any_password Sample.realm Sample.scryptSync
           Sample.gcm_seal Sample.gcm_open Sample.base64_encode
           Sample.base64_decode Sample.JSON_stringify Sample.JSON_parse
           Sample.jwt_sign Sample.jwt_verify sample_verify_sign
           (Sample.ambient false) (Sample.login_event "not the password")
           Sample.store (Sample.login_body "not the password") "alice"
           "not the password" "00ff" Sample.blob);
    vm_compute; first [reflexivity | discriminate].
Defined.


(** C3 for an [add] by [alice] that the store accepts. *)
Lemma success_only_after_persist_witness :
  (<[lastModifiedKey "alice" := "2024-05-01T10:00:00.001Z"]>
     (<[vaultKey "alice" :=
          encrypt Sample.scryptSync Sample.gcm_seal Sample.base64_encode
            Sample.JSON_stringify Sample.other_iv
            {["github" := {["token" := Sample.entry]}]}
            "correcthorse123" "00ff"]> Sample.store))
  !! vaultKey "alice"
  = Some (encrypt Sample.scryptSync Sample.gcm_seal Sample.base64_encode
            Sample.JSON_stringify Sample.other_iv
            {["github" := {["token" := Sample.entry]}]}
            "correcthorse123" "00ff").
Proof.
  apply (success_only_after_persist Sample.realm Sample.scryptSync
           Sample.gcm_seal Sample.gcm_open Sample.base64_encode
           Sample.base64_decode Sample.JSON_stringify Sample.JSON_parse
           Sample.jwt_sign Sample.jwt_verify
           (Sample.ambient false) (Sample.add_event "correcthorse123")
           Sample.store "alice"
           (operation_body "correcthorse123" "add" "github" "token"
              (Some "ghp_x") None)
           "correcthorse123" "00ff" Sample.blob ∅
           {["github" := {["token" := Sample.entry]}]}
           (respond 200 Success)).
  - vm_compute. repeat split; reflexivity.
  - vm_compute. repeat split; reflexivity.
  - vm_compute. reflexivity.
  - left. split; [reflexivity|].
    exists "github", "token", "ghp_x". vm_compute. repeat split; reflexivity.
  - vm_compute. reflexivity.
  - reflexivity.
Defined.

(** C3 fails as stated: the file of the vault cannot be written, [addKey]
    rejects, and the vault in memory is not what it was before the call. In
    the handler a rejected write is answered like a wrong password. *)
Lemma failed_save_keeps_mutation :
  ApiKeymaster.addKey Sample.realm Sample.scryptSync Sample.gcm_seal
    Sample.JSON_stringify Sample.iv "2024-05-01T10:00:00.000Z" true
    "github" "token" "ghp_x" ∅ Sample.unlocked None
  = ([], inl StoreError,
     ApiKeymaster.with_vault Sample.unlocked
       {["github" := {["token" := Sample.entry]}]},
     None)
  ∧ {["github" := {["token" := Sample.entry]}]}
    ≠ ApiKeymaster.vault Sample.unlocked
  ∧ handler Sample.realm Sample.scryptSync Sample.gcm_seal Sample.gcm_open
      Sample.base64_encode Sample.base64_decode Sample.JSON_stringify
      Sample.JSON_parse Sample.jwt_sign Sample.jwt_verify
      (Sample.ambient true) (Sample.add_event "correcthorse123") Sample.store
    = (invalid_master_password, Sample.store).
Proof.
  split; [|split].
  - vm_compute. reflexivity.
  - intros Heq. apply (f_equal (λ v : Vault, v !! "github")) in Heq.
    vm_compute in Heq. discriminate Heq.
  - vm_compute. reflexivity.
Qed.

(** C8 fails as stated: [decrypt] throws on the blob of 31 bytes what it
    throws on the whole blob under a wrong password, the failure of the tag
    check. Its 15 bytes of tag are a length that [setAuthTag] accepts. *)
Lemma short_blob_fails_like_wrong_password :
  length (Sample.base64_decode Sample.short_blob) = 31
  ∧ decrypt Sample.scryptSync Sample.gcm_open Sample.base64_decode
      Sample.JSON_parse Sample.short_blob "correcthorse123" "00ff"
    = inl (CryptoError Unauthenticated)
  ∧ decrypt Sample.scryptSync Sample.gcm_open Sample.base64_decode
      Sample.JSON_parse Sample.blob "Tr0ub4dor&3" "00ff"
    = inl (CryptoError Unauthenticated).
Proof. repeat split; vm_compute; reflexivity. Qed.

(** ** Scenarios over the sample environment *)

(** The status and the body of each response to a sequence of requests. *)
Lemma end_to_end_scenario :
  (λ r, (statusCode r, responseBody r)) <$>
    (Sample.serve_all
       [ Sample.login_event "correcthorse123";
         Sample.vault_event "correcthorse123" "add" "github" "token"
           (Some "ghp_x");
         Sample.vault_event "correcthorse123" "list" "-" "-" None;
         Sample.vault_event "correcthorse123" "get" "github" "token" None;
         Sample.vault_event "correcthorse123" "remove" "github" "token" None;
         Sample.vault_event "correcthorse123" "list" "-" "-" None ] ∅).1
  = [ (200, SuccessToken "jwt:alice");
      (200, Success);
      (200, KeyList
              {["github" :=
                  [ {| info_name := "token";
                       info_added := "2024-05-01T10:00:00.000Z";
                       info_meta := ∅ |} ]]});
      (200, KeyData Sample.entry);
      (200, Success);
      (200, KeyList ∅) ].
Proof. vm_compute. reflexivity. Qed.

(** The same requests with names that [Object.prototype] knows: the key
    name [__proto__] leaves a platform without keys in the stored vault, and
    the removal of the absent key [toString] is answered with success. *)
Lemma inherited_names_scenario :
  (λ r, (statusCode r, responseBody r)) <$>
    (Sample.serve_all
       [ Sample.login_event "correcthorse123";
         Sample.vault_event "correcthorse123" "add" "github" "__proto__"
           (Some "v1");
         Sample.vault_event "correcthorse123" "add" "github" "__proto__"
           (Some "v2");
         Sample.vault_event "correcthorse123" "list" "-" "-" None;
         Sample.vault_event "correcthorse123" "get" "github" "token" None;
         Sample.vault_event "correcthorse123" "remove" "github" "toString"
           None;
         Sample.vault_event "correcthorse123" "list" "-" "-" None ] ∅).1
  = [ (200, SuccessToken "jwt:alice");
      (200, Success);
      (200, Success);
      (200, KeyList {["github" := []]});
      (404, ErrorBody "Key not found");
      (200, Success);
      (200, KeyList ∅) ].
Proof. vm_compute. reflexivity. Qed.

(** Requests that are answered before the vault is touched: the preflight,
    an unknown endpoint, [login] by [GET], [login] with a body that does not
    parse, the vault without a token and with the token of an unknown user,
    and [logout]. *)
Lemma routing_scenario :
  (λ r, (statusCode r, responseBody r, setCookie r)) <$>
    (Sample.serve_all
       [ {| httpMethod := "OPTIONS"; endpoint := Some "vault"; body := None;
            cookie_token := None; bearer := None |};
         {| httpMethod := "GET"; endpoint := Some "keys"; body := None;
            cookie_token := None; bearer := None |};
         {| httpMethod := "GET"; endpoint := Some "login"; body := None;
            cookie_token := None; bearer := None |};
         {| httpMethod := "POST"; endpoint := Some "login"; body := None;
            cookie_token := None; bearer := None |};
         {| httpMethod := "POST"; endpoint := Some "vault"; body := None;
            cookie_token := None; bearer := None |};
         {| httpMethod := "GET"; endpoint := Some "vault"; body := None;
            cookie_token := None; bearer := Some "jwt:bob" |};
         {| httpMethod := "POST"; endpoint := Some "logout"; body := None;
            cookie_token := None; bearer := None |} ] Sample.store).1
  = [ (204, NoBody, None);
      (404, ErrorBody "Not found", None);
      (405, ErrorBody "Method not allowed", None);
      (500, ErrorBody "Internal server error", None);
      (401, ErrorBody "Unauthorized", None);
      (404, ErrorBody "User not found", None);
      (200, Success, Some (EmptyString, 0)) ].
Proof. vm_compute. reflexivity. Qed.

(** * Further properties

    What a mutation leaves alone, the layout of the blob, the routing of a
    request, the keys of the store that a request may write, the answers of
    the handler to sequences of requests, and the methods of the class that
    create the vault and hand its keys to a command. *)

(** ** The vault model: what a mutation changes *)

Section VaultModel_frame.

Variable realm : JS.Realm.
Implicit Types (vault : Vault) (p k : string) (entry : VaultEntry).

Lemma entry_of_insert vault p (keysOfPlatform : Platform) p' k' :
  entry_of (<[p := keysOfPlatform]> vault) p' k'
  = if decide (p' = p) then keysOfPlatform !! k' else entry_of vault p' k'.
Proof.
  unfold entry_of. destruct (decide (p' = p)) as [->|Hne].
  - by rewrite lookup_insert_eq.
  - by rewrite lookup_insert_ne.
Qed.

(** The entries of the vault after the deletion of an entry it has. *)
Lemma delete_key_entries vault p k entry :
  entry_of vault p k = Some entry →
  ∃ vault1,
    delete_key realm vault p k = inr vault1
    ∧ ∀ p' k', entry_of vault1 p' k'
               = if decide ((p', k') = (p, k)) then None
                 else entry_of vault p' k'.
Proof.
  unfold entry_of at 1. intros Hentry.
  destruct (vault !! p) as [keysOfPlatform|] eqn:E; [|done]. simpl in Hentry.
  eexists. split; [by apply delete_key_own|]. intros p' k'.
  destruct (decide (delete k keysOfPlatform = ∅)) as [Hempty|Hrest].
  - unfold entry_of. destruct (decide (p' = p)) as [->|Hp'].
    + rewrite lookup_delete_eq, E. simpl.
      destruct (decide ((p, k') = (p, k))) as [|Hne]; [done|].
      rewrite <- (lookup_delete_ne keysOfPlatform k k') by congruence.
      by rewrite Hempty.
    + rewrite lookup_delete_ne by done.
      by rewrite decide_False by congruence.
  - rewrite entry_of_insert. destruct (decide (p' = p)) as [->|Hp'].
    + destruct (decide ((p, k') = (p, k))) as [[= ->]|Hne].
      * apply lookup_delete_eq.
      * rewrite lookup_delete_ne by congruence. unfold entry_of.
        by rewrite E.
    + by rewrite decide_False by congruence.
Qed.

Lemma delete_key_present vault p k entry :
  entry_of vault p k = Some entry →
  key_missing realm vault p k = false
  ∧ ∃ vault1,
      delete_key realm vault p k = inr vault1 ∧ entry_of vault1 p k = None.
Proof.
  intros Hentry. split.
  - unfold entry_of in Hentry.
    destruct (vault !! p) as [keysOfPlatform|] eqn:E; [|done].
    simpl in Hentry. rewrite (key_missing_own _ _ _ _ _ E).
    by rewrite (get_own _ _ _ Hentry).
  - destruct (delete_key_entries vault p k entry Hentry)
      as (vault1 & Hdelete & Hentries).
    exists vault1. split; [done|]. by rewrite Hentries, decide_True.
Qed.


(** X4. An entry that the vault holds passes the test of [remove]; the
    deletion succeeds, the vault then has no entry under the platform and
    the key, every other entry is as before, and no platform is left
    without keys if none was before. *)
Theorem delete_key_frame vault p k entry :
  entry_of vault p k = Some entry →
  key_missing realm vault p k = false
  ∧ ∃ vault1,
      delete_key realm vault p k = inr vault1
      ∧ entry_of vault1 p k = None
      ∧ (∀ p' k', (p', k') ≠ (p, k) →
           entry_of vault1 p' k' = entry_of vault p' k')
      ∧ (no_empty_platform vault → no_empty_platform vault1).
Proof.
  intros Hentry.
  destruct (delete_key_present vault p k entry Hentry) as [Hfound _].
  split; [done|].
  destruct (delete_key_entries vault p k entry Hentry)
    as (vault1 & Hdelete & Hentries).
  exists vault1. split; [done|]. split; [|split].
  - by rewrite Hentries, decide_True.
  - intros p' k' Hne. by rewrite Hentries, decide_False.
  - intros Hinv. by eapply delete_key_no_empty_platform.
Qed.

End VaultModel_frame.

(** ** The layout of the blob *)

Section Blob_layout.

Variable scryptSync : string → string → Buffer.
Variable gcm_seal : Buffer → Buffer → Buffer → Buffer * Buffer.
Variable base64_encode : Buffer → string.
Variable base64_decode : string → Buffer.
Variable JSON_stringify : Vault → Buffer.

Hypothesis gcm_tag_length : ∀ key iv text,
  length (gcm_seal key iv text).2 = 16.

Hypothesis base64_decode_encode : ∀ buf,
  base64_decode (base64_encode buf) = buf.

(** X5. What [encrypt] returns decodes to the 16 bytes of the IV, the 16
    bytes of the tag and the ciphertext, in this order: it has 32 bytes
    more than the ciphertext and is never a blob that is too short to be
    cut. *)
Theorem encrypt_blob_layout iv (V : Vault) password salt :
  length iv = 16 →
  let data :=
    base64_decode
      (encrypt scryptSync gcm_seal base64_encode JSON_stringify iv V password
         salt) in
  let sealed :=
    gcm_seal (deriveKey scryptSync password salt) iv (JSON_stringify V) in
  take 16 data = iv ∧ take 16 (drop 16 data) = sealed.2
  ∧ drop 32 data = sealed.1 ∧ length data = 32 + length sealed.1.
Proof.
  intros Hiv data sealed. unfold data, sealed, encrypt.
  pose proof (gcm_tag_length (deriveKey scryptSync password salt) iv
                (JSON_stringify V)) as Htag.
  destruct (gcm_seal _ iv _) as [encrypted authTag]. simpl in Htag.
  rewrite base64_decode_encode.
  destruct (split_blob iv authTag encrypted Hiv Htag) as (Hhead & Hmid & Hrest).
  repeat split; [done..|]. simpl. rewrite !length_app. lia.
Qed.

End Blob_layout.

(** ** The endpoint of a path and the token of a header *)

Lemma free_of_String c x s : free_of c (String x s) ↔ c ≠ x ∧ free_of c s.
Proof. unfold free_of. simpl. by rewrite not_elem_of_cons. Qed.

Lemma split_free s sep : free_of sep s → JS.split s sep = [s].
Proof.
  induction s as [|x s IH]; [done|]. intros [Hx Hs]%free_of_String. simpl.
  destruct (Ascii.eqb_spec x sep) as [->|_]; [done|]. by rewrite IH.
Qed.

Lemma split_app s sep rest :
  free_of sep s →
  JS.split (s +:+ String sep rest) sep = s :: JS.split rest sep.
Proof.
  induction s as [|x s IH]; simpl.
  - intros _. by rewrite Ascii.eqb_refl.
  - intros [Hx Hs]%free_of_String.
    destruct (Ascii.eqb_spec x sep) as [->|_]; [done|]. by rewrite IH.
Qed.

Lemma prefix_free c pattern s :
  ¬ free_of c pattern → free_of c s → String.prefix pattern s = false.
Proof.
  revert s. induction pattern as [|q pattern IH]; intros s Hpattern Hs.
  - destruct Hpattern. unfold free_of. simpl. apply not_elem_of_nil.
  - destruct s as [|x s]; [done|]. simpl.
    apply free_of_String in Hs as [Hx Hs].
    destruct (Ascii.ascii_dec q x) as [->|Hne]; [|done].
    apply IH; [|done]. intros Hfree. apply Hpattern.
    by apply free_of_String.
Qed.

Lemma replace_free c pattern s :
  free_of c s → JS.replace s (String c pattern) = s.
Proof.
  induction s as [|x s IH]; [done|]. intros [Hx Hs]%free_of_String.
  cbn [JS.replace String.prefix].
  destruct (Ascii.ascii_dec c x) as [->|_]; [done|]. by rewrite IH.
Qed.

Lemma replace_eq s pattern :
  JS.replace s pattern
  = if String.prefix pattern s then
      String.substring (String.length pattern)
        (String.length s - String.length pattern) s
    else
      match s with
      | EmptyString => EmptyString
      | String c rest => String c (JS.replace rest pattern)
      end.
Proof. by destruct s. Qed.

Lemma prefix_app pattern rest : String.prefix pattern (pattern +:+ rest) = true.
Proof.
  induction pattern as [|c pattern IH]; simpl; [by destruct rest|].
  by destruct (Ascii.ascii_dec c c).
Qed.

Lemma replace_prefix pattern rest : JS.replace (pattern +:+ rest) pattern = rest.
Proof.
  rewrite replace_eq, prefix_app.
  induction pattern as [|c pattern IH]; simpl.
  - rewrite Nat.sub_0_r. apply substring_all.
  - apply IH.
Qed.

Lemma replace_skip c s pattern :
  String.prefix pattern (String c s) = false →
  JS.replace (String c s) pattern = String c (JS.replace s pattern).
Proof. intros Hprefix. by rewrite replace_eq, Hprefix. Qed.

Lemma first_segment e :
  e ≠ EmptyString → free_of "/" e →
  head (filter (λ segment, segment ≠ EmptyString)
          (JS.split (String "/" e) "/")) = Some e.
Proof.
  intros He Hfree. change (String "/" e) with (EmptyString +:+ String "/" e).
  rewrite split_app by (unfold free_of; apply not_elem_of_nil).
  rewrite split_free by done.
  rewrite filter_cons_False by (by intros []).
  by rewrite filter_cons_True by done.
Qed.

(** X6. A path made of the prefix [/api] and one segment, or of the path
    of the function and one segment, has this segment as its endpoint. The
    second replacement is not anchored: it also cuts [/api] off a segment
    that follows the path of the function and starts with [api], and a
    path made of one segment alone is routed like the others. *)
Theorem endpoint_of_paths e :
  e ≠ EmptyString → free_of "/" e →
  endpoint_of ("/api/" +:+ e) = Some e
  ∧ endpoint_of ("/.netlify/functions/api-keymaster/api" +:+ e) = Some e
  ∧ (String.prefix "api" e = false →
     endpoint_of ("/.netlify/functions/api-keymaster/" +:+ e) = Some e
     ∧ endpoint_of ("/" +:+ e) = Some e).
Proof.
  intros He Hfree.
  assert (String.prefix ".netlify/functions/api-keymaster" e = false)
    as Hfunction.
  { apply (prefix_free "/"); [|done]. unfold free_of. simpl.
    intros Hnot. apply Hnot. set_solver. }
  split; [|split; [|intros Hapi; split]]; unfold endpoint_of.
  - change ("/api/" +:+ e) with (String "/" (String "a" (String "p"
      (String "i" (String "/" e))))).
    rewrite 5!(replace_skip _ _ "/.netlify/functions/api-keymaster")
      by first [reflexivity | exact Hfunction].
    rewrite (replace_free "/" _ e) by done.
    change (String "/" (String "a" (String "p" (String "i" (String "/" e)))))
      with ("/api" +:+ String "/" e).
    rewrite replace_prefix. by apply first_segment.
  - change ("/.netlify/functions/api-keymaster/api" +:+ e)
      with ("/.netlify/functions/api-keymaster" +:+ ("/api" +:+ e)).
    rewrite !replace_prefix.
    rewrite split_free by done. by rewrite filter_cons_True by done.
  - change ("/.netlify/functions/api-keymaster/" +:+ e)
      with ("/.netlify/functions/api-keymaster" +:+ String "/" e).
    rewrite replace_prefix.
    rewrite replace_skip by exact Hapi.
    rewrite (replace_free "/" _ e) by done. by apply first_segment.
  - change ("/" +:+ e) with (String "/" e).
    rewrite (replace_skip _ _ "/.netlify/functions/api-keymaster")
      by exact Hfunction.
    rewrite (replace_free "/" _ e) by done.
    rewrite replace_skip by exact Hapi.
    rewrite (replace_free "/" _ e) by done. by apply first_segment.
Qed.

(** The paths without a segment have no endpoint. *)
Lemma endpoint_of_root :
  endpoint_of EmptyString = None ∧ endpoint_of "/" = None
  ∧ endpoint_of "/api" = None ∧ endpoint_of "/api/" = None.
Proof. repeat split; vm_compute; reflexivity. Qed.

(** X7. The token of the header [Authorization] is what follows the first
    space, whatever word precedes it: the scheme is not compared with
    [Bearer]. A header without a space carries no token. Without a cookie,
    the user of the request is the one of this token. *)
Theorem bearer_of_header jwt_verify scheme token event :
  free_of " " scheme → free_of " " token →
  bearer_of (Some (scheme +:+ " " +:+ token)) = Some token
  ∧ bearer_of (Some scheme) = None
  ∧ (JS.present (cookie_token event) = None →
     bearer event = bearer_of (Some (scheme +:+ " " +:+ token)) →
     getAuthUser jwt_verify event
     = JS.present (Some token) ≫= verifyToken jwt_verify).
Proof.
  intros Hscheme Htoken.
  assert (bearer_of (Some (scheme +:+ " " +:+ token)) = Some token) as Hbearer.
  { unfold bearer_of. simpl. change (" " +:+ token) with (String " " token).
    rewrite split_app by done. by rewrite split_free. }
  split; [done|]. split.
  - unfold bearer_of. simpl. by rewrite split_free.
  - intros Hcookie Hevent. unfold getAuthUser.
    rewrite Hcookie, Hevent, Hbearer.
    by destruct (JS.present (Some token)).
Qed.

(** ** The keys of the store *)

Lemma list_ascii_app s t :
  list_ascii_of_string (s +:+ t)
  = (list_ascii_of_string s ++ list_ascii_of_string t)%list.
Proof. induction s as [|c s IH]; simpl; [done|]. by rewrite IH. Qed.

Lemma string_app_inv_tail s1 s2 t : s1 +:+ t = s2 +:+ t → s1 = s2.
Proof.
  intros Heq. apply (f_equal list_ascii_of_string) in Heq.
  rewrite !list_ascii_app in Heq. apply app_inv_tail in Heq.
  apply (f_equal string_of_list_ascii) in Heq.
  by rewrite !string_of_list_ascii_of_string in Heq.
Qed.

(** Strings that end differently are different. *)
Lemma string_app_tail_ne s1 s2 t1 t2 :
  (∀ l1 l2 : list ascii,
     (reverse (list_ascii_of_string t1) ++ l1
      ≠ reverse (list_ascii_of_string t2) ++ l2)%list) →
  s1 +:+ t1 ≠ s2 +:+ t2.
Proof.
  intros Hne Heq. apply (f_equal list_ascii_of_string) in Heq.
  rewrite !list_ascii_app in Heq. apply (f_equal reverse) in Heq.
  rewrite !reverse_app in Heq. by eapply Hne.
Qed.

Lemma saltKey_inj u u' : saltKey u = saltKey u' → u = u'.
Proof.
  unfold saltKey. intros Heq. apply (inj (String.app "user:")) in Heq.
  by apply string_app_inv_tail in Heq.
Qed.

Lemma vaultKey_inj u u' : vaultKey u = vaultKey u' → u = u'.
Proof.
  unfold vaultKey. intros Heq. apply (inj (String.app "user:")) in Heq.
  by apply string_app_inv_tail in Heq.
Qed.

Lemma lastModifiedKey_inj u u' : lastModifiedKey u = lastModifiedKey u' → u = u'.
Proof.
  unfold lastModifiedKey. intros Heq. apply (inj (String.app "user:")) in Heq.
  by apply string_app_inv_tail in Heq.
Qed.

Lemma saltKey_ne_vaultKey u u' : saltKey u ≠ vaultKey u'.
Proof.
  unfold saltKey, vaultKey. intros Heq.
  apply (inj (String.app "user:")) in Heq. revert Heq.
  apply string_app_tail_ne. intros l1 l2. vm_compute. discriminate.
Qed.

Lemma saltKey_ne_lastModifiedKey u u' : saltKey u ≠ lastModifiedKey u'.
Proof.
  unfold saltKey, lastModifiedKey. intros Heq.
  apply (inj (String.app "user:")) in Heq. revert Heq.
  apply string_app_tail_ne. intros l1 l2. vm_compute. discriminate.
Qed.

Lemma vaultKey_ne_lastModifiedKey u u' : vaultKey u ≠ lastModifiedKey u'.
Proof.
  unfold vaultKey, lastModifiedKey. intros Heq.
  apply (inj (String.app "user:")) in Heq. revert Heq.
  apply string_app_tail_ne. intros l1 l2. vm_compute. discriminate.
Qed.

Lemma user_keys_disjoint u u' key :
  key ∈ user_keys u → key ∈ user_keys u' → u = u'.
Proof.
  unfold user_keys. rewrite !elem_of_cons, !elem_of_nil.
  intros [->|[->|[->|[]]]] [Heq|[Heq|[Heq|[]]]].
  - by apply saltKey_inj.
  - by apply saltKey_ne_vaultKey in Heq.
  - by apply saltKey_ne_lastModifiedKey in Heq.
  - symmetry in Heq. by apply saltKey_ne_vaultKey in Heq.
  - by apply vaultKey_inj.
  - by apply vaultKey_ne_lastModifiedKey in Heq.
  - symmetry in Heq. by apply saltKey_ne_lastModifiedKey in Heq.
  - symmetry in Heq. by apply vaultKey_ne_lastModifiedKey in Heq.
  - by apply lastModifiedKey_inj.
Qed.

Lemma equals_true s lit : equals s lit = true ↔ s = Some lit.
Proof.
  destruct s as [s|]; simpl; [|done].
  rewrite String.eqb_eq. split; congruence.
Qed.

Section kv_writes_facts.
Context {A B : Type}.
Implicit Types (keys : list string).

Lemma kv_writes_return keys (a : A) : kv_writes keys (kv_return a).
Proof. by intros store key _. Qed.

Lemma kv_writes_throw keys e : kv_writes keys (kv_throw (A:=A) e).
Proof. by intros store key _. Qed.

Lemma kv_writes_of keys (r : exn + A) : kv_writes keys (kv_of r).
Proof. destruct r; [apply kv_writes_throw|apply kv_writes_return]. Qed.

Lemma kv_writes_bind keys (m : KV A) (k : A → KV B) :
  kv_writes keys m → (∀ a, kv_writes keys (k a)) →
  kv_writes keys (kv_bind m k).
Proof.
  intros Hm Hk store key Hkey. unfold kv_bind.
  specialize (Hm store key Hkey).
  destruct (m store) as [[e|a] store1]; simpl in *; [done|].
  by rewrite (Hk a store1 key Hkey).
Qed.

Lemma kv_writes_try keys (m : KV A) (h : exn → KV A) :
  kv_writes keys m → (∀ e, kv_writes keys (h e)) →
  kv_writes keys (kv_try m h).
Proof.
  intros Hm Hh store key Hkey. unfold kv_try.
  specialize (Hm store key Hkey).
  destruct (m store) as [[e|a] store1]; simpl in *; [|done].
  by rewrite (Hh e store1 key Hkey).
Qed.

End kv_writes_facts.

Lemma kv_writes_get keys k : kv_writes keys (kv_get k).
Proof. by intros store key _. Qed.

Lemma kv_writes_set keys amb k v : k ∈ keys → kv_writes keys (kv_set amb k v).
Proof.
  intros Hk store key Hkey. unfold kv_set.
  destruct (setRejects amb k); simpl; [done|].
  apply lookup_insert_ne. by intros ->.
Qed.

Lemma kv_writes_nothing {A} (m : KV A) store :
  kv_writes [] m → (m store).2 = store.
Proof.
  intros Hm. apply map_eq. intros key. apply Hm. apply not_elem_of_nil.
Qed.

Lemma kv_writes_mono {A} keys1 keys2 (m : KV A) :
  keys1 ⊆ keys2 → kv_writes keys1 m → kv_writes keys2 m.
Proof. intros Hsub Hm store key Hkey. apply Hm. intros Hin. by apply Hkey, Hsub. Qed.

Create HintDb kv.

#[local] Hint Resolve kv_writes_return kv_writes_throw kv_writes_of
  kv_writes_get : kv.

(** ** What a request may write *)

Section Handler_store.

Variable realm : JS.Realm.
Variable scryptSync : string → string → Buffer.
Variable gcm_seal : Buffer → Buffer → Buffer → Buffer * Buffer.
Variable gcm_open :
  Buffer → Buffer → Buffer → Buffer → crypto_failure + Buffer.
Variable base64_encode : Buffer → string.
Variable base64_decode : string → Buffer.
Variable JSON_stringify : Vault → Buffer.
Variable JSON_parse : Buffer → option Vault.
Variable jwt_sign : string → string.
Variable jwt_verify : string → option string.

Local Abbreviation encrypt' :=
  (encrypt scryptSync gcm_seal base64_encode JSON_stringify).
Local Abbreviation decrypt' :=
  (decrypt scryptSync gcm_open base64_decode JSON_parse).
Local Abbreviation vault_operation' :=
  (vault_operation realm scryptSync gcm_seal gcm_open base64_encode
     base64_decode JSON_stringify JSON_parse).
Local Abbreviation login' :=
  (login scryptSync gcm_seal base64_encode JSON_stringify jwt_sign).
Local Abbreviation vault_endpoint' :=
  (vault_endpoint realm scryptSync gcm_seal gcm_open base64_encode
     base64_decode JSON_stringify JSON_parse jwt_verify).
Local Abbreviation handler' :=
  (handler realm scryptSync gcm_seal gcm_open base64_encode base64_decode
     JSON_stringify JSON_parse jwt_sign jwt_verify).

(** The handler is its route, with what is thrown answered by 500. *)
Lemma handler_store amb event store (m : KV Response) :
  (if String.eqb (httpMethod event) "OPTIONS" then kv_return (respond 204 NoBody)
   else if equals (endpoint event) "login" then login' amb event
   else if equals (endpoint event) "vault" then vault_endpoint' amb event
   else if equals (endpoint event) "logout" then kv_return logout
   else kv_return (respond 404 (ErrorBody "Not found"))) = m →
  (handler' amb event store).2 = (m store).2.
Proof.
  intros <-. unfold handler.
  destruct (String.eqb (httpMethod event) "OPTIONS"); [done|].
  by destruct (_ store) as [[e|r] store1].
Qed.

Lemma login_writes amb event :
  kv_writes
    (match body event ≫= λ b, JS.present (username b) with
     | Some user => user_keys user
     | None => []
     end)
    (login' amb event).
Proof.
  unfold login. destruct (negb _); [auto with kv|].
  destruct (body event) as [b|]; simpl; [|auto with kv].
  destruct (JS.present (username b)) as [user|]; [|auto with kv].
  destruct (JS.present (masterPassword b)) as [password|]; [|auto with kv].
  apply kv_writes_bind; [auto with kv|]. intros stored.
  apply kv_writes_bind.
  { destruct (JS.present stored); [auto with kv|].
    apply kv_writes_bind; [|auto with kv].
    apply kv_writes_set. set_solver. }
  intros salt. apply kv_writes_bind; [auto with kv|]. intros vault.
  apply kv_writes_bind; [|auto with kv].
  destruct (JS.present vault); [auto with kv|].
  apply kv_writes_set. set_solver.
Qed.

Lemma vault_operation_writes amb user password salt blob b :
  kv_writes
    (if equals (operation b) "add" || equals (operation b) "remove"
     then user_keys user else [])
    (vault_operation' amb user password salt blob b).
Proof.
  unfold vault_operation. apply kv_writes_bind; [auto with kv|]. intros vault.
  destruct (equals (operation b) "list") eqn:Hlist.
  { auto with kv. }
  destruct (equals (operation b) "get") eqn:Hget.
  { auto with kv. }
  destruct (equals (operation b) "add") eqn:Hadd; simpl.
  { unfold add_operation.
    destruct (JS.present (platform b)); [|auto with kv].
    destruct (JS.present (keyName b)); [|auto with kv].
    destruct (JS.present (keyValue b)); [|auto with kv].
    apply kv_writes_bind; [auto with kv|]. intros vault1.
    apply kv_writes_bind; [apply kv_writes_set; set_solver|]. intros _.
    apply kv_writes_bind; [apply kv_writes_set; set_solver|]. intros _.
    auto with kv. }
  destruct (equals (operation b) "remove") eqn:Hremove; simpl.
  { unfold remove_operation.
    destruct (JS.present (platform b)); [|auto with kv].
    destruct (JS.present (keyName b)); [|auto with kv].
    destruct (key_missing _ _ _ _); [auto with kv|].
    apply kv_writes_bind; [auto with kv|]. intros vault1.
    apply kv_writes_bind; [apply kv_writes_set; set_solver|]. intros _.
    apply kv_writes_bind; [apply kv_writes_set; set_solver|]. intros _.
    auto with kv. }
  auto with kv.
Qed.

Lemma vault_endpoint_writes amb event :
  kv_writes
    (match getAuthUser jwt_verify event, body event with
     | Some user, Some b =>
         if String.eqb (httpMethod event) "POST"
            && (equals (operation b) "add" || equals (operation b) "remove")
         then user_keys user else []
     | _, _ => []
     end)
    (vault_endpoint' amb event).
Proof.
  unfold vault_endpoint. destruct (getAuthUser _ _) as [user|]; [|auto with kv].
  assert (∀ keys, kv_writes keys
            (let! salt := kv_get (saltKey user) in
             match JS.present salt with
             | None => kv_return (respond 404 (ErrorBody "User not found"))
             | Some salt =>
                 let! encryptedVault := kv_get (vaultKey user) in
                 match JS.present encryptedVault with
                 | None =>
                     kv_return (respond 404 (ErrorBody "Vault not found"))
                 | Some encryptedVault =>
                     if String.eqb (httpMethod event) "GET" then
                       let! lastModified := kv_get (lastModifiedKey user) in
                       kv_return
                         (respond 200
                            (VaultInfo user (JS.present lastModified)))
                     else kv_return (respond 405 (ErrorBody "Method not allowed"))
                 end
             end)) as Hread.
  { intros keys. apply kv_writes_bind; [auto with kv|]. intros salt.
    destruct (JS.present salt); [|auto with kv].
    apply kv_writes_bind; [auto with kv|]. intros blob.
    destruct (JS.present blob); [|auto with kv].
    destruct (String.eqb _ "GET"); [|auto with kv].
    apply kv_writes_bind; auto with kv. }
  apply kv_writes_bind; [auto with kv|]. intros salt.
  destruct (JS.present salt) as [salt1|];
    [|destruct (body event); auto with kv].
  apply kv_writes_bind; [auto with kv|]. intros blob.
  destruct (JS.present blob) as [blob1|];
    [|destruct (body event); auto with kv].
  destruct (String.eqb _ "GET") eqn:Hget.
  { destruct (body event) as [b|]; [destruct (_ && _)|];
      (apply kv_writes_bind; auto with kv). }
  destruct (String.eqb _ "POST") eqn:Hpost; simpl;
    [|destruct (body event); auto with kv].
  unfold vault_post. destruct (body event) as [b|]; [|auto with kv].
  destruct (JS.present (masterPassword b)) as [password|].
  - apply kv_writes_try; [|auto with kv]. apply vault_operation_writes.
  - destruct (_ || _); auto with kv.
Qed.

(** The keys of the store that a request may write. *)
Lemma handler_writes amb event store key :
  (handler' amb event store).2 !! key ≠ store !! key →
  ∃ user, acting_user jwt_verify event = Some user ∧ key ∈ user_keys user
    ∧ httpMethod event = "POST"
    ∧ (endpoint event = Some "login"
       ∨ (endpoint event = Some "vault"
          ∧ ∃ b, body event = Some b
              ∧ (operation b = Some "add" ∨ operation b = Some "remove"))).
Proof.
  rewrite (handler_store amb event store _ eq_refl). intros Hchanged.
  destruct (String.eqb (httpMethod event) "OPTIONS"); [done|].
  unfold acting_user.
  destruct (equals (endpoint event) "login") eqn:Hlogin.
  { apply equals_true in Hlogin.
    pose proof (login_writes amb event store key) as Hw.
    destruct (body event ≫= _) as [user|] eqn:Huser.
    - exists user. split; [done|].
      destruct (decide (key ∈ user_keys user)) as [Hin|Hout];
        [|by destruct Hchanged; apply Hw].
      split; [done|]. split; [|by left].
      destruct (String.eqb_spec (httpMethod event) "POST") as [|Hne]; [done|].
      destruct Hchanged. unfold login.
      by destruct (String.eqb_spec (httpMethod event) "POST").
    - destruct Hchanged. apply Hw. apply not_elem_of_nil. }
  destruct (equals (endpoint event) "vault") eqn:Hvault.
  { apply equals_true in Hvault.
    pose proof (vault_endpoint_writes amb event store key) as Hw.
    destruct (getAuthUser jwt_verify event) as [user|];
      [|by destruct Hchanged; apply Hw, not_elem_of_nil].
    destruct (body event) as [b|];
      [|by destruct Hchanged; apply Hw, not_elem_of_nil].
    destruct (String.eqb_spec (httpMethod event) "POST") as [Hpost|];
      [|by destruct Hchanged; apply Hw, not_elem_of_nil].
    simpl in Hw.
    destruct (equals (operation b) "add") eqn:Hadd; simpl in Hw.
    { apply equals_true in Hadd. exists user. split; [done|].
      destruct (decide (key ∈ user_keys user)) as [Hin|Hout];
        [|by destruct Hchanged; apply Hw].
      repeat split; [done..|]. right. split; [done|]. exists b. auto. }
    destruct (equals (operation b) "remove") eqn:Hremove; simpl in Hw;
      [|by destruct Hchanged; apply Hw, not_elem_of_nil].
    apply equals_true in Hremove. exists user. split; [done|].
    destruct (decide (key ∈ user_keys user)) as [Hin|Hout];
      [|by destruct Hchanged; apply Hw].
    repeat split; [done..|]. right. split; [done|]. exists b. auto. }
  by destruct (equals (endpoint event) "logout").
Qed.

(** X8. The handler changes the store only for a [POST] to [login] or for
    a [POST] to [vault] whose operation is [add] or [remove]: every other
    request, whatever its method, endpoint, token and body, leaves the
    store as it is. *)
Theorem store_changes_only_by_mutation amb event store :
  (handler' amb event store).2 ≠ store →
  httpMethod event = "POST"
  ∧ (endpoint event = Some "login"
     ∨ (endpoint event = Some "vault"
        ∧ ∃ b, body event = Some b
            ∧ (operation b = Some "add" ∨ operation b = Some "remove"))).
Proof.
  intros Hchanged.
  set (keys := match acting_user jwt_verify event with
               | Some user => user_keys user
               | None => []
               end).
  destruct (decide (Exists (λ key, (handler' amb event store).2 !! key
                                   ≠ store !! key) keys))
    as [(key & _ & Hkey)%Exists_exists|Hsame].
  - by destruct (handler_writes _ _ _ _ Hkey)
      as (user & _ & _ & Hpost & Hroute).
  - destruct Hchanged. apply map_eq. intros key.
    destruct (decide ((handler' amb event store).2 !! key = store !! key))
      as [|Hkey]; [done|].
    destruct Hsame. apply Exists_exists. exists key. split; [|done].
    destruct (handler_writes _ _ _ _ Hkey)
      as (user & Huser & Hin & _). unfold keys. by rewrite Huser.
Qed.

(** X9. A request leaves alone the salt, the vault and the date of every
    user other than the one it acts for. *)
Theorem other_users_keys_untouched amb event store other key :
  acting_user jwt_verify event ≠ Some other →
  key ∈ user_keys other →
  (handler' amb event store).2 !! key = store !! key.
Proof.
  intros Hother Hkey.
  destruct (decide ((handler' amb event store).2 !! key = store !! key))
    as [|Hchanged]; [done|].
  destruct (handler_writes _ _ _ _ Hchanged)
    as (user & Huser & Hin & _).
  destruct Hother. rewrite Huser. f_equal.
  by apply (user_keys_disjoint _ _ key).
Qed.

End Handler_store.

(** ** The answers of the handler *)

Section Handler_requests.

Variable realm : JS.Realm.
Variable scryptSync : string → string → Buffer.
Variable gcm_seal : Buffer → Buffer → Buffer → Buffer * Buffer.
Variable gcm_open :
  Buffer → Buffer → Buffer → Buffer → crypto_failure + Buffer.
Variable base64_encode : Buffer → string.
Variable base64_decode : string → Buffer.
Variable JSON_stringify : Vault → Buffer.
Variable JSON_parse : Buffer → option Vault.
Variable jwt_sign : string → string.
Variable jwt_verify : string → option string.

Local Abbreviation encrypt' :=
  (encrypt scryptSync gcm_seal base64_encode JSON_stringify).
Local Abbreviation decrypted' := (decrypted scryptSync gcm_open base64_decode).
Local Abbreviation decrypt' :=
  (decrypt scryptSync gcm_open base64_decode JSON_parse).
Local Abbreviation vault_operation' :=
  (vault_operation realm scryptSync gcm_seal gcm_open base64_encode
     base64_decode JSON_stringify JSON_parse).
Local Abbreviation handler' :=
  (handler realm scryptSync gcm_seal gcm_open base64_encode base64_decode
     JSON_stringify JSON_parse jwt_sign jwt_verify).


(** X12. A cookie that carries a token which does not verify makes the
    request unauthorized, whatever the header [Authorization] carries: the
    token of the header is read only when the cookie has none. *)
Theorem invalid_cookie_shadows_bearer amb event store c :
  httpMethod event ≠ "OPTIONS" → endpoint event = Some "vault" →
  JS.present (cookie_token event) = Some c → jwt_verify c = None →
  getAuthUser jwt_verify event = None
  ∧ handler' amb event store = (respond 401 (ErrorBody "Unauthorized"), store).
Proof.
  intros Hmethod Hendpoint Hcookie Hinvalid.
  assert (getAuthUser jwt_verify event = None) as Hnone.
  { unfold getAuthUser, verifyToken. rewrite Hcookie.
    apply present_Some in Hcookie as [_ Hc]. by rewrite present_nonempty. }
  split; [done|]. unfold handler, vault_endpoint.
  destruct (String.eqb_spec (httpMethod event) "OPTIONS"); [done|].
  by rewrite Hendpoint, Hnone.
Qed.




(** X15. A [POST] to [vault] is answered 200 only if the request carries
    a token that verifies, the store holds a salt and a vault for its
    user, and the master password of the body decrypts this vault:
    whatever the operation, nothing succeeds under a password that does not
    open the vault. *)
Theorem success_requires_decryption amb event store r store1 :
  httpMethod event = "POST" → endpoint event = Some "vault" →
  handler' amb event store = (r, store1) → statusCode r = 200 →
  ∃ user b password salt blob V,
    vault_request jwt_verify event user b password
    ∧ stored store user salt blob
    ∧ decrypt' blob password salt = inr V.
Proof.
  intros Hmethod Hendpoint Hhandler Hok. unfold vault_request, stored.
  unfold handler in Hhandler. rewrite Hmethod, Hendpoint in Hhandler.
  simpl in Hhandler. unfold vault_endpoint, kv_bind, kv_get in Hhandler.
  destruct (getAuthUser jwt_verify event) as [user|];
    [|by injection Hhandler as <- <-].
  destruct (JS.present (store !! saltKey user)) as [salt|] eqn:Hsalt;
    [|by injection Hhandler as <- <-].
  destruct (JS.present (store !! vaultKey user)) as [blob|] eqn:Hblob;
    [|by injection Hhandler as <- <-].
  rewrite Hmethod in Hhandler. simpl in Hhandler.
  unfold vault_post in Hhandler.
  destruct (body event) as [b|]; [|by injection Hhandler as <- <-].
  destruct (JS.present (masterPassword b)) as [password|] eqn:Hpassword;
    [|by injection Hhandler as <- <-].
  unfold kv_try, vault_operation, kv_bind in Hhandler.
  destruct (decrypt' blob password salt) as [e|V] eqn:Hdecrypt;
    [by injection Hhandler as <- <-|].
  by exists user, b, password, salt, blob, V.
Qed.

Local Abbreviation login' :=
  (login scryptSync gcm_seal base64_encode JSON_stringify jwt_sign).










End Handler_requests.

(** ** Sequences of requests *)

Section Handler_sessions.

Variable realm : JS.Realm.
Variable scryptSync : string → string → Buffer.
Variable gcm_seal : Buffer → Buffer → Buffer → Buffer * Buffer.
Variable gcm_open :
  Buffer → Buffer → Buffer → Buffer → crypto_failure + Buffer.
Variable base64_encode : Buffer → string.
Variable base64_decode : string → Buffer.
Variable JSON_stringify : Vault → Buffer.
Variable JSON_parse : Buffer → option Vault.
Variable jwt_sign : string → string.
Variable jwt_verify : string → option string.

Hypothesis gcm_open_seal : ∀ key iv text,
  length iv = 16 →
  gcm_open key iv (gcm_seal key iv text).2 (gcm_seal key iv text).1 = inr text.

Hypothesis gcm_tag_length : ∀ key iv text,
  length (gcm_seal key iv text).2 = 16.

Hypothesis base64_decode_encode : ∀ buf,
  base64_decode (base64_encode buf) = buf.

Hypothesis base64_encode_nonempty : ∀ buf,
  buf ≠ [] → base64_encode buf ≠ EmptyString.

Local Abbreviation encrypt' :=
  (encrypt scryptSync gcm_seal base64_encode JSON_stringify).
Local Abbreviation decrypted' := (decrypted scryptSync gcm_open base64_decode).
Local Abbreviation decrypt' :=
  (decrypt scryptSync gcm_open base64_decode JSON_parse).
Local Abbreviation handler' :=
  (handler realm scryptSync gcm_seal gcm_open base64_encode base64_decode
     JSON_stringify JSON_parse jwt_sign jwt_verify).

(** What [encrypt] made of a vault that [JSON.parse] reads back, [decrypt]
    returns. *)
Lemma decrypt_encrypt iv (V : Vault) password salt :
  length iv = 16 → JSON_parse (JSON_stringify V) = Some V →
  decrypt' (encrypt' iv V password salt) password salt = inr V.
Proof.
  intros Hiv Hparse. unfold decrypt.
  rewrite (decrypted_encrypt scryptSync gcm_seal gcm_open base64_encode
             base64_decode JSON_stringify gcm_open_seal gcm_tag_length
             base64_decode_encode) by done.
  by rewrite Hparse.
Qed.

(** The store after a mutation that it accepted holds the salt as before
    and the new blob. *)
Lemma stored_after_mutation store user salt blob iv (V1 : Vault) password t :
  stored store user salt blob → length iv = 16 →
  stored (<[lastModifiedKey user := t]>
            (<[vaultKey user := encrypt' iv V1 password salt]> store))
    user salt (encrypt' iv V1 password salt).
Proof.
  intros [Hsalt Hblob] Hiv. split.
  - rewrite lookup_insert_ne by (symmetry; apply saltKey_ne_lastModifiedKey).
    by rewrite lookup_insert_ne by (symmetry; apply saltKey_ne_vaultKey).
  - rewrite lookup_insert_ne by apply vaultKey_lastModifiedKey.
    rewrite lookup_insert_eq. apply present_nonempty.
    by apply (encrypt_nonempty scryptSync gcm_seal base64_encode
                JSON_stringify base64_encode_nonempty).
Qed.

(** X10. A request to [login] that is answered 200 is a [POST] whose body
    names a user and a master password, both non-empty; the store then
    holds a salt and a vault for this user, so that their requests to
    [vault] find both, and the answer carries the token of this user. *)
Theorem login_success_provisions_user amb event store r store1 :
  endpoint event = Some "login" →
  handler' amb event store = (r, store1) → statusCode r = 200 →
  randomSalt amb ≠ EmptyString → length (randomIv amb) = 16 →
  ∃ b user password salt blob,
    httpMethod event = "POST" ∧ body event = Some b
    ∧ JS.present (username b) = Some user
    ∧ JS.present (masterPassword b) = Some password
    ∧ stored store1 user salt blob
    ∧ responseBody r = SuccessToken (generateToken jwt_sign user).
Proof.
  intros Hendpoint Hhandler Hok Hrs Hiv. unfold stored.
  unfold handler in Hhandler.
  destruct (String.eqb (httpMethod event) "OPTIONS");
    [injection Hhandler as <- <-; simpl in Hok; lia|].
  rewrite Hendpoint in Hhandler. simpl in Hhandler. unfold login in Hhandler.
  destruct (String.eqb_spec (httpMethod event) "POST") as [Hpost|];
    [|injection Hhandler as <- <-; simpl in Hok; lia]. simpl in Hhandler.
  destruct (body event) as [b|]; [|injection Hhandler as <- <-; simpl in Hok; lia].
  destruct (JS.present (username b)) as [user|] eqn:Huser;
    [|injection Hhandler as <- <-; simpl in Hok; lia].
  destruct (JS.present (masterPassword b)) as [password|] eqn:Hpassword;
    [|injection Hhandler as <- <-; simpl in Hok; lia].
  assert (∀ salt, encrypt' (randomIv amb) ∅ password salt ≠ EmptyString)
    as Hblob.
  { intros salt.
    by apply (encrypt_nonempty scryptSync gcm_seal base64_encode
                JSON_stringify base64_encode_nonempty). }
  unfold kv_bind, kv_get, kv_set, kv_return in Hhandler.
  destruct (JS.present (store !! saltKey user)) as [salt|] eqn:Hsalt.
  - destruct (JS.present (store !! vaultKey user)) as [blob|] eqn:Hvault.
    + injection Hhandler as <- <-. exists b, user, password, salt, blob.
      by repeat split.
    + destruct (setRejects amb (vaultKey user));
        [injection Hhandler as <- <-; simpl in Hok; lia|].
      injection Hhandler as <- <-.
      exists b, user, password, salt, (encrypt' (randomIv amb) ∅ password salt).
      repeat split; try done.
      * by rewrite lookup_insert_ne by (symmetry; apply saltKey_ne_vaultKey).
      * rewrite lookup_insert_eq. by apply present_nonempty.
  - destruct (setRejects amb (saltKey user));
      [injection Hhandler as <- <-; simpl in Hok; lia|].
    rewrite lookup_insert_ne in Hhandler by apply saltKey_ne_vaultKey.
    destruct (JS.present (store !! vaultKey user)) as [blob|] eqn:Hvault.
    + injection Hhandler as <- <-.
      exists b, user, password, (randomSalt amb), blob.
      repeat split; try done.
      * rewrite lookup_insert_eq. by apply present_nonempty.
      * by rewrite lookup_insert_ne by apply saltKey_ne_vaultKey.
    + destruct (setRejects amb (vaultKey user));
        [injection Hhandler as <- <-; simpl in Hok; lia|].
      injection Hhandler as <- <-.
      exists b, user, password, (randomSalt amb),
        (encrypt' (randomIv amb) ∅ password (randomSalt amb)).
      repeat split; try done.
      * rewrite lookup_insert_ne by (symmetry; apply saltKey_ne_vaultKey).
        rewrite lookup_insert_eq. by apply present_nonempty.
      * rewrite lookup_insert_eq. by apply present_nonempty.
Qed.

(** X11. The first [login] of a user stores the salt drawn for them and
    the encryption of the empty vault under the password of the request;
    this blob decrypts, under that password, to the text of the empty
    vault, and a [list] that follows is answered with no platform. *)
Theorem first_login_creates_empty_vault amb event store b user password :
  httpMethod event = "POST" → endpoint event = Some "login" →
  body event = Some b →
  JS.present (username b) = Some user →
  JS.present (masterPassword b) = Some password →
  JS.present (store !! saltKey user) = None →
  JS.present (store !! vaultKey user) = None →
  accepts amb → randomSalt amb ≠ EmptyString → length (randomIv amb) = 16 →
  let blob := encrypt' (randomIv amb) ∅ password (randomSalt amb) in
  let store1 :=
    <[vaultKey user := blob]> (<[saltKey user := randomSalt amb]> store) in
  handler' amb event store
  = ({| statusCode := 200;
        responseBody := SuccessToken (generateToken jwt_sign user);
        setCookie := Some (generateToken jwt_sign user, 3600) |}, store1)
  ∧ stored store1 user (randomSalt amb) blob
  ∧ decrypted' blob password (randomSalt amb) = inr (JSON_stringify ∅)
  ∧ (JSON_parse (JSON_stringify ∅) = Some ∅ →
     ∀ amb2 event2 b2,
       vault_request jwt_verify event2 user b2 password →
       operation b2 = Some "list" →
       handler' amb2 event2 store1 = (respond 200 (KeyList ∅), store1)).
Proof.
  intros Hmethod Hendpoint Hbody Huser Hpassword Hsalt Hvault Haccepts Hrs Hiv
    blob store1.
  assert (stored store1 user (randomSalt amb) blob) as Hstored.
  { split.
    - unfold store1.
      rewrite lookup_insert_ne by (symmetry; apply saltKey_ne_vaultKey).
      rewrite lookup_insert_eq. by apply present_nonempty.
    - unfold store1. rewrite lookup_insert_eq. apply present_nonempty.
      by apply (encrypt_nonempty scryptSync gcm_seal base64_encode
                  JSON_stringify base64_encode_nonempty). }
  split; [|split; [done|split]].
  - unfold handler, login, kv_bind, kv_get, kv_set, kv_return.
    rewrite Hmethod, Hendpoint, Hbody, Huser, Hpassword.
    cbn -[JS.present saltKey vaultKey]. rewrite Hsalt, (Haccepts (saltKey user)).
    rewrite lookup_insert_ne by apply saltKey_ne_vaultKey.
    by rewrite Hvault, (Haccepts (vaultKey user)).
  - by apply (decrypted_encrypt scryptSync gcm_seal gcm_open base64_encode
                base64_decode JSON_stringify gcm_open_seal gcm_tag_length
                base64_decode_encode).
  - intros Hparse amb2 event2 b2 Hrequest Hop.
    rewrite (handler_vault_post _ _ _ _ _ _ _ _ _ _ _ _ _ _ _ _ _ _
               Hrequest Hstored).
    unfold vault_operation, kv_bind. unfold blob.
    rewrite decrypt_encrypt by done. by rewrite Hop.
Qed.




(** X21. After an [add] or a [remove] that the store accepted, [GET] on
    [vault] by the same user is answered with the date of this mutation;
    it needs no password. *)
Theorem vault_info_after_mutation amb event store user b password salt blob
    (V V1 : Vault) amb2 event2 :
  vault_request jwt_verify event user b password →
  stored store user salt blob →
  decrypt' blob password salt = inr V →
  mutates realm amb b V V1 →
  accepts amb → length (randomIv amb) = 16 →
  nowModified amb ≠ EmptyString →
  httpMethod event2 = "GET" → endpoint event2 = Some "vault" →
  getAuthUser jwt_verify event2 = Some user →
  handler' amb2 event2 (handler' amb event store).2
  = (respond 200 (VaultInfo user (Some (nowModified amb))),
     (handler' amb event store).2).
Proof.
  intros Hrequest Hstored Hdecrypt Hmutates Haccepts Hiv Hnow Hmethod
    Hendpoint Huser.
  rewrite (handler_mutation _ _ _ _ _ _ _ _ _ _ _ _ _ _ _ _ _ _ _ _
             Hrequest Hstored Hdecrypt Hmutates).
  rewrite (Haccepts (vaultKey user)), (Haccepts (lastModifiedKey user)).
  cbn [snd].
  destruct (stored_after_mutation store user salt blob (randomIv amb) V1
              password (nowModified amb) Hstored Hiv) as [Hsalt Hblob].
  unfold handler, vault_endpoint, kv_bind, kv_get, kv_return.
  rewrite Hmethod, Hendpoint, Huser. cbn -[JS.present saltKey vaultKey
    lastModifiedKey]. rewrite Hsalt, Hblob.
  rewrite lookup_insert_eq. by rewrite present_nonempty.
Qed.

End Handler_sessions.

(** ** The class: creating, opening and reading the vault *)

Section ApiKeymaster_more.

Variable realm : JS.Realm.
Variable scryptSync : string → string → Buffer.
Variable gcm_seal : Buffer → Buffer → Buffer → Buffer * Buffer.
Variable gcm_open :
  Buffer → Buffer → Buffer → Buffer → crypto_failure + Buffer.
Variable base64_encode : Buffer → string.
Variable base64_decode : string → Buffer.
Variable JSON_stringify : Vault → Buffer.
Variable JSON_parse : Buffer → option Vault.
Variable vaultPath : string.
Variable toUpperCase : string → string.
Variable execSync : string → gmap string string → string + option string.

Local Abbreviation saveVault' :=
  (ApiKeymaster.saveVault scryptSync gcm_seal JSON_stringify).
Local Abbreviation unlockVault' :=
  (ApiKeymaster.unlockVault scryptSync gcm_open JSON_parse).
Local Abbreviation createVault' :=
  (ApiKeymaster.createVault scryptSync gcm_seal JSON_stringify).
Local Abbreviation init' :=
  (ApiKeymaster.init scryptSync gcm_seal gcm_open JSON_stringify JSON_parse
     vaultPath).
Local Abbreviation addKey' :=
  (ApiKeymaster.addKey realm scryptSync gcm_seal JSON_stringify).
Local Abbreviation removeKey' :=
  (ApiKeymaster.removeKey realm scryptSync gcm_seal JSON_stringify).
Local Abbreviation getKey' := (ApiKeymaster.getKey realm).
Local Abbreviation execWithKeys' :=
  (ApiKeymaster.execWithKeys toUpperCase execSync).
Local Abbreviation exportForShell' := (ApiKeymaster.exportForShell toUpperCase).
Local Abbreviation encrypt' :=
  (encrypt scryptSync gcm_seal base64_encode JSON_stringify).
Local Abbreviation decrypt' :=
  (decrypt scryptSync gcm_open base64_decode JSON_parse).

(** *** Reading a key *)

Lemma getKey_entry this p k entry :
  ApiKeymaster.initialized this = true →
  entry_of (ApiKeymaster.vault this) p k = Some entry →
  getKey' p k this = inr (ApiKeymaster.Value (value entry)).
Proof.
  intros Hinit Hentry. unfold ApiKeymaster.getKey. rewrite Hinit. simpl.
  destruct (delete_key_present realm _ p k entry Hentry) as [-> _].
  unfold entry_of in Hentry.
  destruct (ApiKeymaster.vault this !! p) as [keysOfPlatform|] eqn:E; [|done].
  simpl in Hentry. rewrite (get_own _ _ _ E). by rewrite (get_own _ _ _ Hentry).
Qed.

Lemma getKey_absent this p k :
  ApiKeymaster.initialized this = true →
  JS.inherited p = false → JS.inherited k = false →
  entry_of (ApiKeymaster.vault this) p k = None →
  getKey' p k this = inr ApiKeymaster.Null.
Proof.
  intros Hinit Hp Hk Hentry. unfold ApiKeymaster.getKey. rewrite Hinit. simpl.
  by rewrite (key_missing_absent realm _ p k Hp Hk Hentry).
Qed.

(** X26. After [addKey] with a platform that [Object.prototype] does not
    know and a key name other than [__proto__], [getKey] returns the value
    just added, whether or not the file could be written; what [getKey]
    returns for the other keys is as before, as long as [Object.prototype]
    does not know their name. *)
Theorem getKey_after_addKey iv clock writeFails p k v m this file :
  ApiKeymaster.initialized this = true →
  JS.inherited p = false → k ≠ "__proto__" →
  ∃ console outcome this1 file1,
    addKey' iv clock writeFails p k v m this file
    = (console, outcome, this1, file1)
    ∧ getKey' p k this1 = inr (ApiKeymaster.Value v)
    ∧ ∀ p' k', (p', k') ≠ (p, k) → JS.inherited k' = false →
        getKey' p' k' this1 = getKey' p' k' this.
Proof.
  intros Hinit Hp Hk.
  set (entry := {| value := v; added := clock; meta := m |}).
  pose proof (assign_key_ordinary realm (ApiKeymaster.vault this) p k entry
                Hp Hk) as Hassign.
  set (vault1 := <[p := <[k := entry]>
                          (default ∅ (ApiKeymaster.vault this !! p))]>
                   (ApiKeymaster.vault this)) in Hassign.
  assert (entry_of vault1 p k = Some entry) as Hentry.
  { unfold vault1, entry_of. rewrite lookup_insert_eq. simpl.
    apply lookup_insert_eq. }
  assert (∀ p' k', (p', k') ≠ (p, k) → JS.inherited k' = false →
            getKey' p' k' (ApiKeymaster.with_vault this vault1)
            = getKey' p' k' this) as Hothers.
  { intros p' k' Hne Hk'. unfold ApiKeymaster.getKey. simpl. unfold vault1.
    destruct (decide (p' = p)) as [->|Hp'].
    - unfold key_missing. rewrite (get_own _ p _ (lookup_insert_eq _ _ _)).
      assert (∀ keysOfPlatform : Platform,
                JS.get (<[k := entry]> keysOfPlatform) k'
                = JS.get keysOfPlatform k') as Hget.
      { intros keysOfPlatform. unfold JS.get.
        by rewrite lookup_insert_ne by congruence. }
      rewrite !Hget.
      destruct (ApiKeymaster.vault this !! p) as [keysOfPlatform|] eqn:E;
        simpl.
      + by rewrite (get_own _ _ _ E).
      + rewrite (get_undefined _ _ E Hp).
        by rewrite (get_undefined (∅ : Platform) k' (lookup_empty _) Hk').
    - unfold key_missing, JS.get. by rewrite !lookup_insert_ne by done. }
  unfold ApiKeymaster.addKey. rewrite Hinit. simpl. fold entry.
  rewrite Hassign.
  destruct (saveVault' iv writeFails _ file) as [[e|ok] file1];
    (eexists _, _, _, _; split; [done|]); (split; [|exact Hothers]);
    by apply (getKey_entry _ p k entry).
Qed.

(** X27. For names that [Object.prototype] does not know, [getKey] returns
    the value of an entry that the vault holds, and [null] once [removeKey]
    has removed it, whether or not the file could be written. *)
Theorem getKey_after_removeKey iv writeFails p k entry this file :
  ApiKeymaster.initialized this = true →
  entry_of (ApiKeymaster.vault this) p k = Some entry →
  JS.inherited p = false → JS.inherited k = false →
  getKey' p k this = inr (ApiKeymaster.Value (value entry))
  ∧ ∃ console outcome this1 file1,
      removeKey' iv writeFails p k this file
      = (console, outcome, this1, file1)
      ∧ getKey' p k this1 = inr ApiKeymaster.Null.
Proof.
  intros Hinit Hentry Hp Hk. split; [by apply getKey_entry|].
  destruct (delete_key_present realm _ p k entry Hentry)
    as (Hfound & vault1 & Hdelete & Hgone).
  unfold ApiKeymaster.removeKey. rewrite Hinit, Hfound, Hdelete. simpl.
  destruct (saveVault' iv writeFails _ file) as [[e|ok] file1];
    (eexists _, _, _, _; split; [done|]); by apply getKey_absent.
Qed.

(** *** The environment of a command *)

Lemma command_env_configured entry variable platform entries env :
  JS.present (ApiKeymaster.envVar entry) = Some variable →
  variable ≠ "__proto__" →
  ApiKeymaster.command_env toUpperCase (JS.Own entry) platform entries env
  = match last entries with
    | Some kv => <[variable := value kv.2]> env
    | None => env
    end.
Proof.
  intros Hvariable Hne. unfold ApiKeymaster.command_env.
  induction entries as [|kv entries IH] using rev_ind; [done|].
  rewrite foldl_app, last_snoc, IH. simpl.
  unfold ApiKeymaster.envVarName. rewrite Hvariable. simpl.
  rewrite set_insert by done.
  destruct (last entries); [|done]. by rewrite insert_insert_eq.
Qed.

(** X28. For a platform whose entry of the configuration names a variable,
    as the three platforms of the default configuration do, every key of
    the platform is assigned to this one variable: whatever the number of
    keys, the command runs in the environment of the process plus this
    variable, set to the value of one of the keys. *)
Theorem configured_platform_exports_one_variable env platform command this disk
    keysOfPlatform config entry variable :
  ApiKeymaster.initialized this = true →
  ApiKeymaster.vault this !! platform = Some keysOfPlatform →
  keysOfPlatform ≠ ∅ →
  ApiKeymaster.configFile disk = Some config →
  ApiKeymaster.platforms config !! platform = Some entry →
  JS.present (ApiKeymaster.envVar entry) = Some variable →
  variable ≠ "__proto__" →
  ∃ k secret,
    keysOfPlatform !! k = Some secret
    ∧ execWithKeys' env platform command this disk
      = match execSync command (<[variable := value secret]> env) with
        | inr output => ([], inr output)
        | inl message =>
            (["Command execution failed: " +:+ message], inl (Error message))
        end.
Proof.
  intros Hinit Hplatform Hkeys Hconfig Hentry Hvariable Hne.
  unfold ApiKeymaster.execWithKeys.
  rewrite Hinit, (get_own _ _ _ Hplatform), Hconfig, (get_own _ _ _ Hentry).
  simpl. rewrite (command_env_configured entry variable) by done.
  destruct (last (map_to_list keysOfPlatform)) as [[k secret]|] eqn:Hlast.
  - exists k, secret. split; [|done].
    apply elem_of_map_to_list. apply last_Some in Hlast as [l ->].
    apply elem_of_app. right. apply list_elem_of_singleton. done.
  - apply last_None in Hlast. by apply map_to_list_empty_iff in Hlast.
Qed.

(** X29. For a platform that the configuration does not list,
    [execWithKeys] throws, while [exportForShell] names the variable after
    the platform and the key, in upper case, and pastes the value between
    double quotes as it is. *)
Theorem unconfigured_platform env platform command this disk config k secret :
  ApiKeymaster.initialized this = true →
  ApiKeymaster.vault this !! platform = Some {[k := secret]} →
  ApiKeymaster.configFile disk = Some config →
  ApiKeymaster.platforms config !! platform = None →
  JS.inherited platform = false →
  execWithKeys' env platform command this disk
  = ([], inl (Error ("Platform " +:+ platform +:+ " not configured")))
  ∧ exportForShell' platform this disk
    = inr ("export " +:+ (toUpperCase platform +:+ "_" +:+ toUpperCase k)
           +:+ "=" +:+ ApiKeymaster.quote +:+ value secret
           +:+ ApiKeymaster.quote +:+ ApiKeymaster.newline).
Proof.
  intros Hinit Hplatform Hconfig Hentry Hordinary.
  unfold ApiKeymaster.execWithKeys, ApiKeymaster.exportForShell.
  rewrite Hinit, (get_own _ _ _ Hplatform), Hconfig.
  rewrite (get_undefined _ _ Hentry Hordinary). simpl. split; [done|].
  by rewrite map_to_list_singleton.
Qed.

(** *** Failures of [init] *)

Lemma unlockVault_initialized password this file console outcome this1 :
  unlockVault' password this file = (console, outcome, this1) →
  ApiKeymaster.initialized this1 = ApiKeymaster.initialized this.
Proof.
  unfold ApiKeymaster.unlockVault. intros Hunlock.
  destruct file as [encryptedData|]; [|by injection Hunlock as _ _ <-].
  destruct (ApiKeymaster.parseEncryptedData encryptedData)
    as [[iv authTag] encryptedVault].
  destruct (ApiKeymaster.deriveKey _ _) as [e1|key];
    [by injection Hunlock as _ _ <-|].
  destruct (gcm_open key iv authTag encryptedVault) as [why|text];
    [by injection Hunlock as _ _ <-|].
  destruct (JSON_parse text) as [data|]; by injection Hunlock as _ _ <-.
Qed.

Lemma createVault_failure iv writeFails password this file console e this1
    file1 :
  createVault' iv writeFails password this file
  = (console, inl e, this1, file1) →
  ApiKeymaster.initialized this1 = ApiKeymaster.initialized this
  ∧ file1 = file.
Proof.
  unfold ApiKeymaster.createVault, ApiKeymaster.saveVault,
    ApiKeymaster.deriveKey.
  destruct (_ || _); [by intros [= _ _ <- <-]|]. simpl.
  destruct (gcm_seal _ _ _) as [encrypted authTag].
  destruct writeFails; [|done]. by intros [= _ _ <- <-].
Qed.

(** The third step of [init], on a failure of [unlockVault] or of
    [createVault]. *)
Local Ltac unlock_or_create :=
  destruct (ApiKeymaster.vaultFile _) as [data|] eqn:Hdata;
  [ destruct (unlockVault' _ _ (Some data))
      as [[console2 [e2|ok]] this2] eqn:Hunlock; [|done];
    intros [= _ _ <- <-];
    by rewrite (unlockVault_initialized _ _ _ _ _ _ Hunlock)
  | destruct (createVault' _ _ _ _ None)
      as [[[console2 [e2|ok]] this2] file2] eqn:Hcreate; [|done];
    intros [= _ _ <- <-]; simpl;
    by destruct (createVault_failure _ _ _ _ _ _ _ _ _ Hcreate) as [-> ->] ].

(** X25. When [init] fails, whatever the cause (the directory or a file
    cannot be written, the password is too short, the vault does not open),
    the object is initialized no more than before and the file of the
    vault is as before; an object that was not initialized then throws
    [Vault not initialized] from every operation. *)
Theorem failed_init_stays_locked iv clock faults password this disk console e
    this1 disk1 :
  init' iv clock faults password this disk = (console, inl e, this1, disk1) →
  ApiKeymaster.initialized this1 = ApiKeymaster.initialized this
  ∧ ApiKeymaster.vaultFile disk1 = ApiKeymaster.vaultFile disk
  ∧ (ApiKeymaster.initialized this = false →
     (∀ iv1 clock1 writeFails p k v m file,
        addKey' iv1 clock1 writeFails p k v m this1 file
        = ([], inl (Error "Vault not initialized"), this1, file))
     ∧ (∀ iv1 writeFails p k file,
          removeKey' iv1 writeFails p k this1 file
          = ([], inl (Error "Vault not initialized"), this1, file))
     ∧ (∀ p k, getKey' p k this1 = inl (Error "Vault not initialized"))
     ∧ ApiKeymaster.listKeys this1 = inl (Error "Vault not initialized")
     ∧ (∀ env p command disk2,
          execWithKeys' env p command this1 disk2
          = ([], inl (Error "Vault not initialized")))
     ∧ (∀ p disk2,
          exportForShell' p this1 disk2
          = inl (Error "Vault not initialized"))).
Proof.
  intros Hinit.
  assert (ApiKeymaster.initialized this1 = ApiKeymaster.initialized this
          ∧ ApiKeymaster.vaultFile disk1 = ApiKeymaster.vaultFile disk)
    as [Hsame Hfile].
  { revert Hinit. unfold ApiKeymaster.init.
    destruct (ApiKeymaster.directory disk);
      [|destruct (ApiKeymaster.mkdirFails faults);
          [by intros [= _ _ <- <-]|]; simpl];
      (destruct (ApiKeymaster.configFile disk) as [config|]; simpl;
         [|destruct (ApiKeymaster.writeConfigFails faults);
             [by intros [= _ _ <- <-]|]; simpl]);
      unlock_or_create. }
  split; [done|]. split; [done|]. intros Hlocked.
  unfold ApiKeymaster.addKey, ApiKeymaster.removeKey, ApiKeymaster.getKey,
    ApiKeymaster.listKeys, ApiKeymaster.execWithKeys,
    ApiKeymaster.exportForShell.
  by rewrite Hsame, Hlocked.
Qed.

(** *** Creating the vault and opening it again *)


Hypothesis gcm_open_seal : ∀ key iv text,
  length iv = 16 →
  gcm_open key iv (gcm_seal key iv text).2 (gcm_seal key iv text).1 = inr text.

Hypothesis gcm_tag_length : ∀ key iv text,
  length (gcm_seal key iv text).2 = 16.




(** *** One format for the file and for the blob *)

Hypothesis base64_decode_encode : ∀ buf,
  base64_decode (base64_encode buf) = buf.

(** X22. The file that [saveVault] writes is, decoded from base64, the blob
    that [encrypt] of the handler makes of the same vault under the same
    password, the same IV and the salt [api-keymaster-salt]; and
    [unlockVault] opens the decoding of a blob exactly when [decrypt] of
    the handler opens the blob under that salt, with the same vault or the
    same exception. *)
Theorem file_is_decoded_blob iv password this file :
  ApiKeymaster.masterPassword this = Some password →
  saveVault' iv false this file
  = (inr true,
     Some (base64_decode
             (encrypt' iv (ApiKeymaster.vault this) password
                "api-keymaster-salt")))
  ∧ ∀ blob,
      unlockVault' password this (Some (base64_decode blob))
      = match decrypt' blob password "api-keymaster-salt" with
        | inr data =>
            (["Vault unlocked successfully!"], inr tt,
             {| ApiKeymaster.masterPassword := Some password;
                ApiKeymaster.vault := data;
                ApiKeymaster.initialized := ApiKeymaster.initialized this |})
        | inl e =>
            (["Failed to unlock vault. Incorrect password?"], inl e,
             {| ApiKeymaster.masterPassword := Some password;
                ApiKeymaster.vault := ApiKeymaster.vault this;
                ApiKeymaster.initialized := ApiKeymaster.initialized this |})
        end.
Proof.
  intros Hpassword. split.
  - unfold ApiKeymaster.saveVault, ApiKeymaster.deriveKey, encrypt, deriveKey.
    rewrite Hpassword.
    destruct (gcm_seal _ _ _) as [encrypted authTag].
    by rewrite base64_decode_encode.
  - intros blob.
    unfold ApiKeymaster.unlockVault, ApiKeymaster.deriveKey,
      ApiKeymaster.parseEncryptedData, decrypt, decrypted, deriveKey.
    cbn -[Nat.sub take drop].
    destruct (gcm_open _ _ _ _) as [why|text]; [done|].
    by destruct (JSON_parse text).
Qed.

End ApiKeymaster_more.

(** ** The further properties at sample inputs *)

(** X1 for the vault that holds the key [token] of [github]. *)
Lemma reachable_no_empty_platform_witness :
  no_empty_platform Sample.vault_with_key.
Proof.
  apply (reachable_no_empty_platform Sample.realm).
  apply (reachable_add _ _ ∅ "github" "token" Sample.entry).
  - apply reachable_empty.
  - discriminate.
  - vm_compute. reflexivity.
Defined.

(** X2 for the key [__proto__], added to the empty vault and removed. *)
Lemma add_then_remove_prunes_witness :
  list_keys (∅ : Vault) !! "github" = None.
Proof.
  apply (add_then_remove_prunes Sample.realm ∅ "github" "__proto__"
           Sample.entry {["github" := ∅]} ∅).
  - reflexivity.
  - vm_compute. reflexivity.
  - vm_compute. reflexivity.
Defined.


(** X4 for the only key of a vault. *)
Lemma delete_key_frame_witness :
  key_missing Sample.realm Sample.vault_with_key "github" "token" = false.
Proof.
  eapply proj1.
  apply (delete_key_frame Sample.realm Sample.vault_with_key "github" "token"
           Sample.entry).
  vm_compute. reflexivity.
Defined.

(** X5 for the blob of the empty vault. *)
Lemma encrypt_blob_layout_witness :
  take 16 (Sample.base64_decode Sample.blob) = Sample.iv.
Proof.
  eapply proj1.
  apply (encrypt_blob_layout Sample.scryptSync Sample.gcm_seal
           Sample.base64_encode Sample.base64_decode Sample.JSON_stringify
           sample_tag_length sample_decode_encode Sample.iv ∅
           "correcthorse123" "00ff").
  reflexivity.
Defined.

(** X6 for the endpoint [vault]. *)
Lemma endpoint_of_paths_witness : endpoint_of "/api/vault" = Some "vault".
Proof.
  eapply proj1. apply (endpoint_of_paths "vault"); [discriminate|].
  unfold free_of. compute_done.
Defined.

(** X7 for a header whose scheme is not [Bearer]. *)
Lemma bearer_of_header_witness :
  bearer_of (Some "Basic jwt:alice") = Some "jwt:alice".
Proof.
  eapply proj1.
  apply (bearer_of_header Sample.jwt_verify "Basic" "jwt:alice"
           Sample.info_event); unfold free_of; compute_done.
Defined.

(** X8 for an [add] by [alice]. *)
Lemma store_changes_only_by_mutation_witness :
  httpMethod (Sample.add_event "correcthorse123") = "POST"
  ∧ (endpoint (Sample.add_event "correcthorse123") = Some "login"
     ∨ (endpoint (Sample.add_event "correcthorse123") = Some "vault"
        ∧ ∃ b, body (Sample.add_event "correcthorse123") = Some b
            ∧ (operation b = Some "add" ∨ operation b = Some "remove"))).
Proof.
  apply (store_changes_only_by_mutation Sample.realm Sample.scryptSync
           Sample.gcm_seal Sample.gcm_open Sample.base64_encode
           Sample.base64_decode Sample.JSON_stringify Sample.JSON_parse
           Sample.jwt_sign Sample.jwt_verify (Sample.ambient false)
           (Sample.add_event "correcthorse123") Sample.store).
  intros Hsame.
  apply (f_equal (λ store : Store, store !! lastModifiedKey "alice")) in Hsame.
  vm_compute in Hsame. discriminate Hsame.
Defined.

(** X9 for an [add] by [alice] and the vault of [bob]. *)
Lemma other_users_keys_untouched_witness :
  (Sample.serve (Sample.ambient false) (Sample.add_event "correcthorse123")
     Sample.store).2 !! vaultKey "bob"
  = Sample.store !! vaultKey "bob".
Proof.
  apply (other_users_keys_untouched Sample.realm Sample.scryptSync
           Sample.gcm_seal Sample.gcm_open Sample.base64_encode
           Sample.base64_decode Sample.JSON_stringify Sample.JSON_parse
           Sample.jwt_sign Sample.jwt_verify (Sample.ambient false)
           (Sample.add_event "correcthorse123") Sample.store "bob").
  - vm_compute. discriminate.
  - unfold user_keys. compute_done.
Defined.

(** X10 for a [login] of [alice]. *)
Lemma login_success_provisions_user_witness :
  ∃ b user password salt blob,
    httpMethod (Sample.login_event "correcthorse123") = "POST"
    ∧ body (Sample.login_event "correcthorse123") = Some b
    ∧ JS.present (username b) = Some user
    ∧ JS.present (masterPassword b) = Some password
    ∧ stored Sample.store user salt blob
    ∧ responseBody
        {| statusCode := 200; responseBody := SuccessToken "jwt:alice";
           setCookie := Some ("jwt:alice", 3600) |}
      = SuccessToken (generateToken Sample.jwt_sign user).
Proof.
  apply (login_success_provisions_user Sample.realm Sample.scryptSync
           Sample.gcm_seal Sample.gcm_open Sample.base64_encode
           Sample.base64_decode Sample.JSON_stringify Sample.JSON_parse
           Sample.jwt_sign Sample.jwt_verify sample_encode_nonempty
           (Sample.ambient false) (Sample.login_event "correcthorse123")
           Sample.store).
  - reflexivity.
  - vm_compute. reflexivity.
  - reflexivity.
  - discriminate.
  - reflexivity.
Defined.

(** X11 for the first [login] of [alice]. *)
Lemma first_login_creates_empty_vault_witness :
  Sample.serve (Sample.ambient false) (Sample.login_event "correcthorse123") ∅
  = ({| statusCode := 200; responseBody := SuccessToken "jwt:alice";
        setCookie := Some ("jwt:alice", 3600) |},
     <[vaultKey "alice" :=
         encrypt Sample.scryptSync Sample.gcm_seal Sample.base64_encode
           Sample.JSON_stringify Sample.other_iv ∅ "correcthorse123" "a1b2"]>
       (<[saltKey "alice" := "a1b2"]> ∅)).
Proof.
  eapply proj1.
  apply (first_login_creates_empty_vault Sample.realm Sample.scryptSync
           Sample.gcm_seal Sample.gcm_open Sample.base64_encode
           Sample.base64_decode Sample.JSON_stringify Sample.JSON_parse
           Sample.jwt_sign Sample.jwt_verify sample_open_seal
           sample_tag_length sample_decode_encode sample_encode_nonempty
           (Sample.ambient false) (Sample.login_event "correcthorse123") ∅
           (Sample.login_body "correcthorse123") "alice" "correcthorse123").
  - reflexivity.
  - reflexivity.
  - reflexivity.
  - reflexivity.
  - reflexivity.
  - reflexivity.
  - reflexivity.
  - intros key. reflexivity.
  - discriminate.
  - reflexivity.
Defined.

(** X12 for a forged cookie next to the token of [alice] in the header. *)
Lemma invalid_cookie_shadows_bearer_witness :
  getAuthUser Sample.jwt_verify
    {| httpMethod := "GET"; endpoint := Some "vault"; body := None;
       cookie_token := Some "forged"; bearer := Some "jwt:alice" |} = None
  ∧ Sample.serve (Sample.ambient false)
      {| httpMethod := "GET"; endpoint := Some "vault"; body := None;
         cookie_token := Some "forged"; bearer := Some "jwt:alice" |}
      Sample.store
    = (respond 401 (ErrorBody "Unauthorized"), Sample.store).
Proof.
  apply (invalid_cookie_shadows_bearer Sample.realm Sample.scryptSync
           Sample.gcm_seal Sample.gcm_open Sample.base64_encode
           Sample.base64_decode Sample.JSON_stringify Sample.JSON_parse
           Sample.jwt_sign Sample.jwt_verify (Sample.ambient false) _
           Sample.store "forged").
  - discriminate.
  - reflexivity.
  - reflexivity.
  - reflexivity.
Defined.



(** X15 for an [add] by [alice] under her password. *)
Lemma success_requires_decryption_witness :
  ∃ user b password salt blob V,
    vault_request Sample.jwt_verify (Sample.add_event "correcthorse123") user
      b password
    ∧ stored Sample.store user salt blob
    ∧ decrypt Sample.scryptSync Sample.gcm_open Sample.base64_decode
        Sample.JSON_parse blob password salt = inr V.
Proof.
  apply (success_requires_decryption Sample.realm Sample.scryptSync
           Sample.gcm_seal Sample.gcm_open Sample.base64_encode
           Sample.base64_decode Sample.JSON_stringify Sample.JSON_parse
           Sample.jwt_sign Sample.jwt_verify (Sample.ambient false)
           (Sample.add_event "correcthorse123") Sample.store
           (Sample.serve (Sample.ambient false)
              (Sample.add_event "correcthorse123") Sample.store).1
           (Sample.serve (Sample.ambient false)
              (Sample.add_event "correcthorse123") Sample.store).2).
  - reflexivity.
  - reflexivity.
  - apply surjective_pairing.
  - vm_compute. reflexivity.
Defined.






(** X21 for an [add] by [alice] followed by her [GET]. *)
Lemma vault_info_after_mutation_witness :
  Sample.serve (Sample.ambient false) Sample.info_event
    (Sample.serve (Sample.ambient false) (Sample.add_event "correcthorse123")
       Sample.store).2
  = (respond 200 (VaultInfo "alice" (Some "2024-05-01T10:00:00.001Z")),
     (Sample.serve (Sample.ambient false) (Sample.add_event "correcthorse123")
        Sample.store).2).
Proof.
  apply (vault_info_after_mutation Sample.realm Sample.scryptSync
           Sample.gcm_seal Sample.gcm_open Sample.base64_encode
           Sample.base64_decode Sample.JSON_stringify Sample.JSON_parse
           Sample.jwt_sign Sample.jwt_verify sample_encode_nonempty
           (Sample.ambient false) (Sample.add_event "correcthorse123")
           Sample.store "alice"
           (operation_body "correcthorse123" "add" "github" "token"
              (Some "ghp_x") None)
           "correcthorse123" "00ff" Sample.blob ∅ Sample.vault_with_key
           (Sample.ambient false) Sample.info_event).
  - vm_compute. repeat split; reflexivity.
  - vm_compute. repeat split; reflexivity.
  - vm_compute. reflexivity.
  - left. split; [reflexivity|]. exists "github", "token", "ghp_x".
    split; [reflexivity|]. split; [reflexivity|]. split; [reflexivity|].
    vm_compute. reflexivity.
  - intros key. reflexivity.
  - reflexivity.
  - discriminate.
  - reflexivity.
  - reflexivity.
  - vm_compute. reflexivity.
Defined.

(** X22 for the object that holds the key [token] of [github]. *)
Lemma file_is_decoded_blob_witness :
  ApiKeymaster.saveVault Sample.scryptSync Sample.gcm_seal
    Sample.JSON_stringify Sample.other_iv false Sample.unlocked_with_key None
  = (inr true,
     Some (Sample.base64_decode
             (encrypt Sample.scryptSync Sample.gcm_seal Sample.base64_encode
                Sample.JSON_stringify Sample.other_iv Sample.vault_with_key
                "correcthorse123" "api-keymaster-salt"))).
Proof.
  eapply proj1.
  apply (file_is_decoded_blob Sample.scryptSync Sample.gcm_seal
           Sample.gcm_open Sample.base64_encode Sample.base64_decode
           Sample.JSON_stringify Sample.JSON_parse sample_decode_encode
           Sample.other_iv "correcthorse123" Sample.unlocked_with_key None).
  reflexivity.
Defined.



(** X25 for a password that is too short, in a home without the
    directory. *)
Lemma failed_init_stays_locked_witness :
  ApiKeymaster.getKey Sample.realm "github" "token" ApiKeymaster.constructor
  = inl (Error "Vault not initialized").
Proof.
  destruct (failed_init_stays_locked Sample.realm Sample.scryptSync
              Sample.gcm_seal Sample.gcm_open Sample.JSON_stringify
              Sample.JSON_parse Sample.vaultPath Sample.toUpperCase
              Sample.execSync Sample.iv "2024-05-01T10:00:00.000Z"
              Sample.no_faults "short" ApiKeymaster.constructor
              {| ApiKeymaster.directory := false;
                 ApiKeymaster.configFile := None;
                 ApiKeymaster.vaultFile := None |}
              ["Created vault directory at " +:+ Sample.vaultPath;
               "Password must be at least 8 characters"]
              (Error "Password too short") ApiKeymaster.constructor
              (Sample.disk "2024-05-01T10:00:00.000Z" None))
    as (_ & _ & Hlocked).
  - vm_compute. reflexivity.
  - destruct (Hlocked eq_refl) as (_ & _ & HgetKey & _). apply HgetKey.
Defined.

(** X26 for the first key of an unlocked object, whose file cannot be
    written. *)
Lemma getKey_after_addKey_witness :
  ∃ console outcome this1 file1,
    ApiKeymaster.addKey Sample.realm Sample.scryptSync Sample.gcm_seal
      Sample.JSON_stringify Sample.iv "2024-05-01T10:00:00.000Z" true
      "github" "token" "ghp_x" ∅ Sample.unlocked None
    = (console, outcome, this1, file1)
    ∧ ApiKeymaster.getKey Sample.realm "github" "token" this1
      = inr (ApiKeymaster.Value "ghp_x")
    ∧ ∀ p' k', (p', k') ≠ ("github", "token") → JS.inherited k' = false →
        ApiKeymaster.getKey Sample.realm p' k' this1
        = ApiKeymaster.getKey Sample.realm p' k' Sample.unlocked.
Proof.
  apply getKey_after_addKey; [reflexivity|reflexivity|discriminate].
Defined.

(** X27 for the only key of an unlocked object. *)
Lemma getKey_after_removeKey_witness :
  ApiKeymaster.getKey Sample.realm "github" "token" Sample.unlocked_with_key
  = inr (ApiKeymaster.Value "ghp_x").
Proof.
  eapply proj1.
  apply (getKey_after_removeKey Sample.realm Sample.scryptSync
           Sample.gcm_seal Sample.JSON_stringify Sample.iv false "github"
           "token" Sample.entry Sample.unlocked_with_key None).
  - reflexivity.
  - vm_compute. reflexivity.
  - reflexivity.
  - reflexivity.
Defined.

(** X28 for [github] under the default configuration. *)
Lemma configured_platform_exports_one_variable_witness :
  ∃ k secret,
    ({["token" := Sample.entry]} : Platform) !! k = Some secret
    ∧ ApiKeymaster.execWithKeys Sample.toUpperCase Sample.execSync ∅ "github"
        "gh auth status" Sample.unlocked_with_key (Sample.disk "t" None)
      = match Sample.execSync "gh auth status"
                (<["GITHUB_TOKEN" := value secret]> ∅) with
        | inr output => ([], inr output)
        | inl message =>
            (["Command execution failed: " +:+ message], inl (Error message))
        end.
Proof.
  apply (configured_platform_exports_one_variable Sample.toUpperCase
           Sample.execSync ∅ "github" "gh auth status"
           Sample.unlocked_with_key (Sample.disk "t" None)
           {["token" := Sample.entry]} (ApiKeymaster.defaultConfig "t")
           {| ApiKeymaster.name := "GitHub";
              ApiKeymaster.urlPattern := "github.com";
              ApiKeymaster.envVar := Some "GITHUB_TOKEN" |} "GITHUB_TOKEN").
  - reflexivity.
  - vm_compute. reflexivity.
  - apply insert_non_empty.
  - reflexivity.
  - vm_compute. reflexivity.
  - reflexivity.
  - discriminate.
Defined.

(** X29 for a platform that the default configuration does not list. *)
Lemma unconfigured_platform_witness :
  ApiKeymaster.execWithKeys Sample.toUpperCase Sample.execSync ∅ "gitlab"
    "glab auth status"
    {| ApiKeymaster.masterPassword := Some "correcthorse123";
       ApiKeymaster.vault := {["gitlab" := {["token" := Sample.entry]}]};
       ApiKeymaster.initialized := true |}
    (Sample.disk "t" None)
  = ([], inl (Error "Platform gitlab not configured"))
  ∧ ApiKeymaster.exportForShell Sample.toUpperCase "gitlab"
      {| ApiKeymaster.masterPassword := Some "correcthorse123";
         ApiKeymaster.vault := {["gitlab" := {["token" := Sample.entry]}]};
         ApiKeymaster.initialized := true |}
      (Sample.disk "t" None)
    = inr ("export GITLAB_TOKEN=" +:+ ApiKeymaster.quote +:+ "ghp_x"
           +:+ ApiKeymaster.quote +:+ ApiKeymaster.newline).
Proof.
  apply (unconfigured_platform Sample.toUpperCase Sample.execSync ∅ "gitlab"
           "glab auth status" _ (Sample.disk "t" None)
           (ApiKeymaster.defaultConfig "t") "token" Sample.entry).
  - reflexivity.
  - vm_compute. reflexivity.
  - reflexivity.
  - vm_compute. reflexivity.
  - reflexivity.
Defined.
